(** * Field validators of aries_cloudagent/messaging/valid.py

    A shallow embedding of the validators declared in [valid.py] together
    with the pieces of their run-time environment that decide their
    behaviour: Python's [re.match] on the pattern fragment the file uses,
    [str.format], and marshmallow's [Range], [OneOf] and [Regexp].

    Python text is modelled by [string]: sequences of code points below
    256.  On that range the decimal digits matched by [\d] are exactly
    [0]..[9].  Python's [\d] also matches the decimal digits of other
    scripts, all of them above 255; texts with such characters lie outside
    the model, so a statement about every [string] speaks of the texts of
    code points below 256 only. *)

From Stdlib Require Import ZArith NArith List String Ascii Bool Lia Arith.
From Stdlib Require Import DecimalString.
Import ListNotations.

Local Open Scope string_scope.
Local Open Scope list_scope.

(** ** Text helpers *)

(** The line feed, ["\n"] in Python. *)
Definition LF : ascii := "010"%char.

(** [all p s]: every character of [s] satisfies [p]. *)
Fixpoint all (p : ascii -> bool) (s : string) : bool :=
  match s with
  | EmptyString => true
  | String c t => p c && all p t
  end.

(** [occurs c s]: the character [c] appears in [s]. *)
Fixpoint occurs (c : ascii) (s : string) : bool :=
  match s with
  | EmptyString => false
  | String a t => Ascii.eqb a c || occurs c t
  end.

(** [strip l s]: [s] without its prefix [l], when it starts with [l]. *)
Fixpoint strip (l s : string) : option string :=
  match l with
  | EmptyString => Some s
  | String a l' =>
      match s with
      | EmptyString => None
      | String b s' => if Ascii.eqb a b then strip l' s' else None
      end
  end.

(** [sep.join(xs)]. *)
Fixpoint join (sep : string) (xs : list string) : string :=
  match xs with
  | [] => EmptyString
  | [x] => x
  | x :: rest => (x ++ sep ++ join sep rest)%string
  end.

(** [str(n)] of an integer. *)
Definition str_of_Z (n : Z) : string := NilZero.string_of_int (Z.to_int n).

(** ** Python's [re]: the pattern fragment used by valid.py

    The patterns of the file repeat single-character sets only, and make
    groups optional but never repeat them; capture groups do not influence
    whether a match exists and are not represented. No flags are passed
    (in particular neither MULTILINE nor DOTALL). *)
Module Re.

(** One member of a bracketed set. *)
Inductive item : Type :=
| Chr (c : ascii)            (* a single character *)
| Rng (lo hi : ascii).       (* lo-hi *)

(** A set of characters. *)
Inductive cset : Type :=
| Set_ (items : list item)   (* [...] *)
| Digit                      (* \d, on code points below 256: 0-9 *)
| Dot.                       (* .  : anything except a line feed *)

Inductive regex : Type :=
| Lit (l : string)                            (* literal text *)
| Any (c : cset)                              (* one character of c *)
| Rep (c : cset) (lo : nat) (hi : option nat) (* c{lo,hi}; c* is {0,}, c+ is {1,} *)
| Opt (r : regex)                             (* (r)? *)
| Cat (r1 r2 : regex)                         (* r1 r2 *)
| Alt (r1 r2 : regex)                         (* r1|r2 *)
| Bol                                         (* ^ *)
| Eol.                                        (* $ *)

Definition in_item (i : item) (c : ascii) : bool :=
  match i with
  | Chr a => Ascii.eqb a c
  | Rng lo hi => (N_of_ascii lo <=? N_of_ascii c)%N && (N_of_ascii c <=? N_of_ascii hi)%N
  end.

Definition mem (s : cset) (c : ascii) : bool :=
  match s with
  | Set_ items => existsb (fun i => in_item i c) items
  | Digit => in_item (Rng "0" "9") c
  | Dot => negb (Ascii.eqb c LF)
  end.

(** Greedy repetition of a character test: every text that can remain
    after between [lo] and [hi] characters satisfying [p] were consumed,
    longest consumption first. *)
Fixpoint rep (p : ascii -> bool) (lo : nat) (hi : option nat) (s : string)
  : list string :=
  let stop := if (lo =? 0)%nat then [s] else [] in
  match hi with
  | Some O => stop
  | _ =>
      match s with
      | String c t =>
          if p c then rep p (pred lo) (option_map pred hi) t ++ stop else stop
      | EmptyString => stop
      end
  end.

(** [run r s0 s]: the backtracking matcher.  [s0] is the whole subject,
    [s] what is left of it at the current position; the result lists, in
    the order the engine tries them, every text that can remain after
    [r] matched at the current position. *)
Fixpoint run (r : regex) (s0 s : string) : list string :=
  match r with
  | Lit l => match strip l s with Some t => [t] | None => [] end
  | Any c =>
      match s with
      | String a t => if mem c a then [t] else []
      | EmptyString => []
      end
  | Rep c lo hi => rep (mem c) lo hi s
  | Opt r1 => run r1 s0 s ++ [s]
  | Cat r1 r2 => flat_map (run r2 s0) (run r1 s0 s)
  | Alt r1 r2 => run r1 s0 s ++ run r2 s0 s
  | Bol => if (String.length s =? String.length s0)%nat then [s] else []
  | Eol =>
      match s with
      | EmptyString => [s]
      | String c EmptyString => if Ascii.eqb c LF then [s] else []
      | _ => []
      end
  end.

(** A compiled pattern: its source text and its program. *)
Record Pattern : Type := compile { pattern : string; prog : regex }.

(** [regex.match(s)]: a match starting at position 0, or [None].  The
    match is represented by the text left after it. *)
Definition match_ (p : Pattern) (s : string) : option string :=
  hd_error (run (prog p) s s).

End Re.

Declare Scope re_scope.
Delimit Scope re_scope with re.
Bind Scope re_scope with Re.regex.
Notation "r1 ;; r2" := (Re.Cat r1 r2) (at level 61, right associativity) : re_scope.

(** ** Python's [str.format] with keyword arguments

    Replacement fields [{name}] are looked up among the keyword arguments.
    Doubled braces and format specifications do not occur in the templates
    of valid.py and are not modelled. *)
Fixpoint lookup (kw : list (string * string)) (name : string) : string :=
  match kw with
  | [] => EmptyString
  | (k, v) :: rest => if String.eqb k name then v else lookup rest name
  end.

Fixpoint format_from (kw : list (string * string)) (field : option string)
  (t : string) : string :=
  match t with
  | EmptyString => EmptyString
  | String c t' =>
      match field with
      | None =>
          if Ascii.eqb c "{" then format_from kw (Some EmptyString) t'
          else String c (format_from kw None t')
      | Some name =>
          if Ascii.eqb c "}" then (lookup kw name ++ format_from kw None t')%string
          else format_from kw (Some (name ++ String c EmptyString)%string) t'
      end
  end.

Definition format (t : string) (kw : list (string * string)) : string :=
  format_from kw None t.

(** ** marshmallow.validate *)
Module Marshmallow.

(** The outcome of calling a validator: the value is returned, or
    [ValidationError] is raised with a message. *)
Inductive result (A : Type) : Type :=
| Return (v : A)
| ValidationError (msg : string).
Arguments Return {A} v.
Arguments ValidationError {A} msg.

Definition passes {A : Type} (r : result A) : bool :=
  match r with Return _ => true | ValidationError _ => false end.

(** *** Range *)
Record Range : Type :=
  { Range_min : option Z; Range_max : option Z; Range_error : option string }.

Definition message_min := "Must be at least {min}.".
Definition message_max := "Must be at most {max}.".
Definition message_all := "Must be between {min} and {max}.".

Definition str_of_bound (b : option Z) : string :=
  match b with Some z => str_of_Z z | None => "None" end.

Definition Range_format_error (r : Range) (value : Z) (message : string) : string :=
  format (match Range_error r with Some e => e | None => message end)
    [("input", str_of_Z value); ("min", str_of_bound (Range_min r));
     ("max", str_of_bound (Range_max r))].

Definition below (b : option Z) (value : Z) : bool :=
  match b with Some m => (value <? m)%Z | None => false end.

Definition above (b : option Z) (value : Z) : bool :=
  match b with Some m => (value >? m)%Z | None => false end.

Definition Range_call (r : Range) (value : Z) : result Z :=
  if below (Range_min r) value then
    ValidationError (Range_format_error r value
      (match Range_max r with None => message_min | Some _ => message_all end))
  else if above (Range_max r) value then
    ValidationError (Range_format_error r value
      (match Range_min r with None => message_max | Some _ => message_all end))
  else Return value.

(** *** OneOf *)
Record OneOf : Type := { OneOf_choices : list string; OneOf_error : string }.

Definition choices_text (v : OneOf) : string := join ", " (OneOf_choices v).

Definition OneOf_format_error (v : OneOf) (value : string) : string :=
  format (OneOf_error v)
    [("input", value); ("choices", choices_text v); ("labels", EmptyString)].

Definition OneOf_call (v : OneOf) (value : string) : result string :=
  if existsb (String.eqb value) (OneOf_choices v) then Return value
  else ValidationError (OneOf_format_error v value).

(** *** Regexp *)
Record Regexp : Type := { Regexp_regex : Re.Pattern; Regexp_error : string }.

Definition Regexp_format_error (v : Regexp) (value : string) : string :=
  format (Regexp_error v)
    [("input", value); ("regex", Re.pattern (Regexp_regex v))].

Definition Regexp_call (v : Regexp) (value : string) : result string :=
  match Re.match_ (Regexp_regex v) value with
  | None => ValidationError (Regexp_format_error v value)
  | Some _ => Return value
  end.

End Marshmallow.
Import Marshmallow.

(** ** valid.py *)

(** [base58.alphabet], the Bitcoin alphabet of the base58 package. *)
Definition B58 : string :=
  "123456789ABCDEFGHJKLMNPQRSTUVWXYZabcdefghijkmnopqrstuvwxyz".

(** The set [[{B58}]]. *)
Definition b58 : Re.cset := Re.Set_ (map Re.Chr (list_ascii_of_string B58)).

(** [[0-9.]] *)
Definition digits_dots : Re.cset := Re.Set_ [Re.Rng "0" "9"; Re.Chr "."].

(** [.+] *)
Definition dot_plus : Re.regex := Re.Rep Re.Dot 1 None.

(** [\d\d] *)
Definition dd : Re.regex := (Re.Any Re.Digit ;; Re.Any Re.Digit)%re.

(** *** class IntEpoch(Range) *)
Definition IntEpoch : Range :=
  {| Range_min := Some 0%Z;
     Range_max := Some 2147483647%Z;
     Range_error := Some "Value {input} is not a valid integer epoch time." |}.

(** [EXAMPLE = int(datetime.now().timestamp())]: the clock reading, in
    whole seconds, taken when the class body runs. *)
Definition IntEpoch_EXAMPLE (now : Z) : Z := now.

(** *** class IndyDID(Regexp) *)
Definition IndyDID : Regexp :=
  {| Regexp_regex :=
       Re.compile ("^[" ++ B58 ++ "]{21,22}$")
         (Re.Bol ;; Re.Rep b58 21 (Some 22) ;; Re.Eol);
     Regexp_error := "Value {input} is not an indy decentralized identifier (DID)." |}.

Definition IndyDID_EXAMPLE : string := "WgWxqztrNooG92RXvxSTWv".

(** *** class IndyCredDefId(Regexp) *)

(** First alternative of the schema reference, one of 1-9 then any
    number of 0-9: the sequence number of the schema transaction. *)
Definition schema_txn : Re.regex :=
  (Re.Any (Re.Set_ [Re.Rng "1" "9"]) ;; Re.Rep (Re.Set_ [Re.Rng "0" "9"]) 0 None)%re.

(** Second alternative, [[{B58}]{21,22}:2:.+:[0-9.]+]: a schema identifier. *)
Definition schema_id : Re.regex :=
  (Re.Rep b58 21 (Some 22) ;; Re.Lit ":2:" ;; dot_plus
   ;; Re.Lit ":" ;; Re.Rep digits_dots 1 None)%re.

Definition IndyCredDefId : Regexp :=
  {| Regexp_regex :=
       Re.compile
         ("([" ++ B58 ++ "]{21,22})" ++ ":3" ++ ":CL"
          ++ ":(([1-9][0-9]*)|([" ++ B58 ++ "]{21,22}:2:.+:[0-9.]+))"
          ++ "(.+)?$")
         (Re.Rep b58 21 (Some 22)                 (* issuer DID *)
          ;; Re.Lit ":3"                          (* cred def id marker *)
          ;; Re.Lit ":CL"                         (* sig alg *)
          ;; Re.Lit ":" ;; Re.Alt schema_txn schema_id   (* schema txn / id *)
          ;; Re.Opt dot_plus                      (* tag *)
          ;; Re.Eol);
     Regexp_error := "Value {input} is not an indy credential definition identifier." |}.

Definition IndyCredDefId_EXAMPLE : string := "WgWxqztrNooG92RXvxSTWv:3:CL:20:tag".

(** *** class IndyVersion(Regexp) *)
Definition IndyVersion : Regexp :=
  {| Regexp_regex :=
       Re.compile "^[0-9.]+$" (Re.Bol ;; Re.Rep digits_dots 1 None ;; Re.Eol);
     Regexp_error := "Value {input} is not an indy version (use only digits and '.')." |}.

Definition IndyVersion_EXAMPLE : string := "1.0".

(** *** class IndySchemaId(Regexp) *)
Definition IndySchemaId : Regexp :=
  {| Regexp_regex :=
       Re.compile ("^[" ++ B58 ++ "]{21,22}:2:.+:[0-9.]+$")
         (Re.Bol ;; Re.Rep b58 21 (Some 22) ;; Re.Lit ":2:" ;; dot_plus
          ;; Re.Lit ":" ;; Re.Rep digits_dots 1 None ;; Re.Eol);
     Regexp_error := "Value {input} is not an indy schema identifier." |}.

Definition IndySchemaId_EXAMPLE : string := "WgWxqztrNooG92RXvxSTWv:2:schema_name:1.0".

(** *** class IndyPredicate(OneOf) *)
Definition IndyPredicate : OneOf :=
  {| OneOf_choices := ["<"; "<="; ">="; ">"];
     OneOf_error := "Value {input} must be one of {choices}." |}.

Definition IndyPredicate_EXAMPLE : string := ">=".

(** *** class IndyISO8601DateTime(Regexp) *)

(** [(?:\:(\d\d(?:\.\d{1,6})?))?] *)
Definition seconds_group : Re.regex :=
  Re.Opt (Re.Lit ":" ;; dd ;; Re.Opt (Re.Lit "." ;; Re.Rep Re.Digit 1 (Some 6))).

(** [([+-]\d\d:?\d\d|Z)] *)
Definition zone_group : Re.regex :=
  Re.Alt
    (Re.Any (Re.Set_ [Re.Chr "+"; Re.Chr "-"]) ;; dd ;; Re.Opt (Re.Lit ":") ;; dd)
    (Re.Lit "Z").

Definition IndyISO8601DateTime : Regexp :=
  {| Regexp_regex :=
       Re.compile
         ("^(\d{4})-(\d\d)-(\d\d)[T ](\d\d):(\d\d)"
          ++ "(?:\:(\d\d(?:\.\d{1,6})?))?([+-]\d\d:?\d\d|Z)$")
         (Re.Bol ;; Re.Rep Re.Digit 4 (Some 4) ;; Re.Lit "-" ;; dd ;; Re.Lit "-" ;; dd
          ;; Re.Any (Re.Set_ [Re.Chr "T"; Re.Chr " "]) ;; dd ;; Re.Lit ":" ;; dd
          ;; seconds_group ;; zone_group ;; Re.Eol);
     Regexp_error := "Value {input} is not a date in valid format." |}.

(** [EXAMPLE = epoch_to_str(int(datetime.now().timestamp()))].  The helper
    [epoch_to_str] lives in [messaging/util.py], which is not part of the
    sources at hand; it is taken as a parameter. *)
Definition IndyISO8601DateTime_EXAMPLE (epoch_to_str : Z -> string) (now : Z)
  : string := epoch_to_str now.

(** *** class Base64(Regexp) *)
Definition Base64 : Regexp :=
  {| Regexp_regex :=
       Re.compile "^[a-zA-Z0-9+/]*={0,2}$"
         (Re.Bol
          ;; Re.Rep (Re.Set_ [Re.Rng "a" "z"; Re.Rng "A" "Z"; Re.Rng "0" "9";
                              Re.Chr "+"; Re.Chr "/"]) 0 None
          ;; Re.Rep (Re.Set_ [Re.Chr "="]) 0 (Some 2) ;; Re.Eol);
     Regexp_error := "Value is not a valid base64 encoding" |}.

Definition Base64_EXAMPLE : string := "ey4uLn0=".

(** [Base64.__call__]: the value may be [None]. *)
Definition Base64_call (value : option string) : result (option string) :=
  match value with
  | None => ValidationError (Regexp_error Base64)
  | Some s =>
      if negb (String.length s mod 4 =? 0)%nat
      then ValidationError (Regexp_error Base64)
      else match Regexp_call Base64 s with
           | Return v => Return (Some v)
           | ValidationError msg => ValidationError msg
           end
  end.

(** *** class SHA256Hash(Regexp) *)
Definition SHA256Hash : Regexp :=
  {| Regexp_regex :=
       Re.compile "^[a-fA-F0-9+/]{64}$"
         (Re.Bol
          ;; Re.Rep (Re.Set_ [Re.Rng "a" "f"; Re.Rng "A" "F"; Re.Rng "0" "9";
                              Re.Chr "+"; Re.Chr "/"]) 64 (Some 64)
          ;; Re.Eol);
     Regexp_error := "Value is not a valid (binhex-encoded) SHA-256 hash" |}.

Definition SHA256Hash_EXAMPLE : string :=
  "617a48c7c8afe0521efdc03e5bb0ad9e655893e6b4b51f0e794d70fba132aacb".

(** *** Instances for marshmallow schema specification *)

(** A catalog entry: [{"validate": ..., "example": ...}]. *)
Record entry (A : Type) : Type :=
  { validate : A -> result A; example : A }.
Arguments validate {A} e.
Arguments example {A} e.

Definition INT_EPOCH (now : Z) : entry Z :=
  {| validate := Range_call IntEpoch; example := IntEpoch_EXAMPLE now |}.
Definition INDY_DID : entry string :=
  {| validate := Regexp_call IndyDID; example := IndyDID_EXAMPLE |}.
Definition INDY_CRED_DEF_ID : entry string :=
  {| validate := Regexp_call IndyCredDefId; example := IndyCredDefId_EXAMPLE |}.
Definition INDY_VERSION : entry string :=
  {| validate := Regexp_call IndyVersion; example := IndyVersion_EXAMPLE |}.
Definition INDY_SCHEMA_ID : entry string :=
  {| validate := Regexp_call IndySchemaId; example := IndySchemaId_EXAMPLE |}.
Definition INDY_PREDICATE : entry string :=
  {| validate := OneOf_call IndyPredicate; example := IndyPredicate_EXAMPLE |}.
Definition INDY_ISO8601_DATETIME (epoch_to_str : Z -> string) (now : Z) : entry string :=
  {| validate := Regexp_call IndyISO8601DateTime;
     example := IndyISO8601DateTime_EXAMPLE epoch_to_str now |}.
Definition BASE64 : entry (option string) :=
  {| validate := Base64_call; example := Some Base64_EXAMPLE |}.
Definition SHA256 : entry string :=
  {| validate := Regexp_call SHA256Hash; example := SHA256Hash_EXAMPLE |}.

(** An entry of any value type, and the whole catalog by name.  [now1] and
    [now2] are the two clock readings taken while the module loads. *)
Inductive any_entry : Type :=
| Entry : forall A : Type, entry A -> any_entry.
Arguments Entry {A} e.

Definition catalog (epoch_to_str : Z -> string) (now1 now2 : Z)
  : list (string * any_entry) :=
  [ ("INT_EPOCH", Entry (INT_EPOCH now1));
    ("INDY_DID", Entry INDY_DID);
    ("INDY_CRED_DEF_ID", Entry INDY_CRED_DEF_ID);
    ("INDY_VERSION", Entry INDY_VERSION);
    ("INDY_SCHEMA_ID", Entry INDY_SCHEMA_ID);
    ("INDY_PREDICATE", Entry INDY_PREDICATE);
    ("INDY_ISO8601_DATETIME", Entry (INDY_ISO8601_DATETIME epoch_to_str now2));
    ("BASE64", Entry BASE64);
    ("SHA256", Entry SHA256) ].

(** The example of an entry passes the entry's own validator. *)
Definition self_consistent (e : any_entry) : bool :=
  match e with Entry e => passes (validate e (example e)) end.

(** ** The formats in the words of the specification

    These predicates follow the prose of the specification, not the
    patterns; the theorems below compare the validators with them. *)

Definition between (lo hi c : ascii) : bool :=
  (N_of_ascii lo <=? N_of_ascii c)%N && (N_of_ascii c <=? N_of_ascii hi)%N.

Definition is_digit (c : ascii) : bool := between "0" "9" c.

(** A character of the base58 alphabet. *)
Definition is_b58 (c : ascii) : bool := occurs c B58.

(** DID: 21 or 22 characters of the base58 alphabet. *)
Definition is_did (s : string) : bool :=
  ((String.length s =? 21)%nat || (String.length s =? 22)%nat) && all is_b58 s.

(** Version: one or more characters, digits and dots only. *)
Definition is_version (s : string) : bool :=
  negb (String.eqb s EmptyString) && all (fun c => is_digit c || Ascii.eqb c ".") s.

(** A positive decimal transaction sequence number. *)
Definition is_seq_no (s : string) : bool :=
  match s with
  | EmptyString => false
  | String a t => between "1" "9" a && all is_digit t
  end.

(** Schema ID: a DID, [:2:], any non-empty text, [:], a version. *)
Definition schema_id_form (s : string) : Prop :=
  exists did name ver,
    s = (did ++ ":2:" ++ name ++ ":" ++ ver)%string
    /\ is_did did = true /\ name <> EmptyString /\ is_version ver = true.

(** The schema reference of a credential-definition ID. *)
Definition schema_ref (s : string) : Prop :=
  is_seq_no s = true \/ schema_id_form s.

(** [p] is an initial part of [s]. *)
Definition starts_with (s p : string) : Prop := exists q, s = (p ++ q)%string.

(** A character of [A-Za-z0-9+/]. *)
Definition is_base64_char (c : ascii) : bool :=
  between "A" "Z" c || between "a" "z" c || is_digit c
  || Ascii.eqb c "+" || Ascii.eqb c "/".

(** Base64 text: characters of the alphabet, then 0 to 2 padding signs. *)
Definition base64_form (s : string) : Prop :=
  exists body pad,
    s = (body ++ pad)%string /\ all is_base64_char body = true
    /\ (pad = "" \/ pad = "=" \/ pad = "==")%string.

(** A character of [a-fA-F0-9+/]. *)
Definition is_hash_char (c : ascii) : bool :=
  between "a" "f" c || between "A" "F" c || is_digit c
  || Ascii.eqb c "+" || Ascii.eqb c "/".

(** SHA-256 text: exactly 64 characters of the class. *)
Definition sha256_form (s : string) : bool :=
  (String.length s =? 64)%nat && all is_hash_char s.

(** [n] digits. *)
Definition digits (n : nat) (s : string) : bool :=
  (String.length s =? n)%nat && all is_digit s.

(** The optional seconds: nothing, [:SS], or [:SS.] and 1 to 6 digits. *)
Definition seconds_form (s : string) : Prop :=
  s = EmptyString
  \/ exists ss, digits 2 ss = true
       /\ (s = (":" ++ ss)%string
           \/ exists f, s = (":" ++ ss ++ "." ++ f)%string
                /\ 1 <= String.length f <= 6 /\ all is_digit f = true).

(** The timezone: [Z], or a sign, [HH], an optional colon and [MM]. *)
Definition zone_form (s : string) : Prop :=
  s = "Z"%string
  \/ exists sign hh mm,
       (sign = "+"%char \/ sign = "-"%char)
       /\ digits 2 hh = true /\ digits 2 mm = true
       /\ (s = String sign (hh ++ ":" ++ mm) \/ s = String sign (hh ++ mm)).

(** ISO-8601 datetime: [YYYY-MM-DD], [T] or a space, [HH:MM], the optional
    seconds and the timezone. *)
Definition iso8601_form (s : string) : Prop :=
  exists yyyy mo dd sep hh mi sec tz,
    s = (yyyy ++ "-" ++ mo ++ "-" ++ dd ++ String sep (hh ++ ":" ++ mi ++ sec ++ tz))%string
    /\ digits 4 yyyy = true /\ digits 2 mo = true /\ digits 2 dd = true
    /\ (sep = "T"%char \/ sep = " "%char)
    /\ digits 2 hh = true /\ digits 2 mi = true
    /\ seconds_form sec /\ zone_form tz.

(** [P] holds of [s], or of [s] without one final line feed. *)
Definition up_to_final_lf (P : string -> Prop) (s : string) : Prop :=
  P s \/ exists u, s = (u ++ String LF EmptyString)%string /\ P u.

(** No line feed in [s] except possibly as its last character. *)
Fixpoint lf_only_last (s : string) : bool :=
  match s with
  | EmptyString => true
  | String c t =>
      match t with
      | EmptyString => true
      | _ => negb (Ascii.eqb c LF) && lf_only_last t
      end
  end.

(** [msg] contains [v]. *)
Definition embeds (v msg : string) : Prop :=
  exists a b, msg = (a ++ v ++ b)%string.

(** A template has a replacement field for the rejected value. *)
Fixpoint has_field (name : string) (t : string) : bool :=
  match strip ("{" ++ name ++ "}") t with
  | Some _ => true
  | None => match t with
            | EmptyString => false
            | String _ t' => has_field name t'
            end
  end.

(** ** Denotation of patterns *)

Definition within (hi : option nat) (n : nat) : Prop :=
  match hi with None => True | Some h => n <= h end.

(** [den r s0 s t]: at the position of the subject [s0] where [s] is left,
    [r] can match and leave [t]. *)
Fixpoint den (r : Re.regex) (s0 s t : string) : Prop :=
  match r with
  | Re.Lit l => s = (l ++ t)%string
  | Re.Any c => exists a, s = String a t /\ Re.mem c a = true
  | Re.Rep c lo hi =>
      exists u, s = (u ++ t)%string /\ all (Re.mem c) u = true
                /\ lo <= String.length u /\ within hi (String.length u)
  | Re.Opt r1 => den r1 s0 s t \/ t = s
  | Re.Cat r1 r2 => exists u, den r1 s0 s u /\ den r2 s0 u t
  | Re.Alt r1 r2 => den r1 s0 s t \/ den r2 s0 s t
  | Re.Bol => t = s /\ String.length s = String.length s0
  | Re.Eol => t = s /\ (s = EmptyString \/ s = String LF EmptyString)
  end.

(** A validator accepts a value. *)
Definition accepts (v : Regexp) (s : string) : Prop := Regexp_call v s = Return s.

(** A pattern without [^] and [$]. *)
Fixpoint pure (r : Re.regex) : bool :=
  match r with
  | Re.Lit _ | Re.Any _ | Re.Rep _ _ _ => true
  | Re.Opt r1 => pure r1
  | Re.Cat r1 r2 | Re.Alt r1 r2 => pure r1 && pure r2
  | Re.Bol | Re.Eol => false
  end.

(** The texts a pure pattern matches in full. *)
Fixpoint lang (r : Re.regex) (w : string) : Prop :=
  match r with
  | Re.Lit l => w = l
  | Re.Any c => exists a, w = String a EmptyString /\ Re.mem c a = true
  | Re.Rep c lo hi =>
      all (Re.mem c) w = true /\ lo <= String.length w /\ within hi (String.length w)
  | Re.Opt r1 => lang r1 w \/ w = EmptyString
  | Re.Cat r1 r2 => exists a b, w = (a ++ b)%string /\ lang r1 a /\ lang r2 b
  | Re.Alt r1 r2 => lang r1 w \/ lang r2 w
  | Re.Bol | Re.Eol => False
  end.

(** A pattern without its leading [^]. *)
Definition unanchor (r : Re.regex) : Re.regex :=
  match r with
  | Re.Cat Re.Bol r' => r'
  | _ => r
  end.

(** A sequence without its closing [$]. *)
Fixpoint chop_eol (r : Re.regex) : option Re.regex :=
  match r with
  | Re.Cat r1 r2 =>
      match r2 with
      | Re.Eol => Some r1
      | _ => option_map (Re.Cat r1) (chop_eol r2)
      end
  | _ => None
  end.

(** The pattern of a validator between its anchors. *)
Definition body (v : Regexp) : option Re.regex :=
  chop_eol (unanchor (Re.prog (Regexp_regex v))).

(** A pure pattern none of whose sets and literals contains a line feed. *)
Fixpoint lf_free (r : Re.regex) : bool :=
  match r with
  | Re.Lit l => negb (occurs LF l)
  | Re.Any c | Re.Rep c _ _ => negb (Re.mem c LF)
  | Re.Opt r1 => lf_free r1
  | Re.Cat r1 r2 | Re.Alt r1 r2 => lf_free r1 && lf_free r2
  | Re.Bol | Re.Eol => true
  end.

(** Every rejection by [v] carries a message that contains the rejected
    value. *)
Definition reports_input (v : Regexp) : Prop :=
  forall value msg, Regexp_call v value = ValidationError msg -> embeds value msg.

(** The identifier validators: DID, schema ID, credential-definition ID,
    version, ISO-8601 datetime, hash. *)
Definition identifier_validators : list Regexp :=
  [IndyDID; IndySchemaId; IndyCredDefId; IndyVersion; IndyISO8601DateTime;
   SHA256Hash].

(** Every example of the catalog passes its validator. *)
Definition catalog_self_consistent (epoch_to_str : Z -> string) (now1 now2 : Z)
  : bool :=
  forallb (fun e => self_consistent (snd e)) (catalog epoch_to_str now1 now2).

(** The validators of the file built on [Regexp]. *)
Definition regexp_validators : list Regexp :=
  [IndyDID; IndyCredDefId; IndyVersion; IndySchemaId; IndyISO8601DateTime;
   Base64; SHA256Hash].

(** A hexadecimal digit, in either case. *)
Definition is_hex (c : ascii) : bool :=
  is_digit c || between "a" "f" c || between "A" "F" c.

(** A schema identifier as the patterns read it: the name is any
    non-empty text without a line feed. *)
Definition schema_id_text (s : string) : Prop :=
  exists did name ver,
    s = (did ++ ":2:" ++ name ++ ":" ++ ver)%string
    /\ is_did did = true
    /\ (name <> EmptyString /\ occurs LF name = false)
    /\ is_version ver = true.

(** A credential-definition identifier as the pattern reads it: a DID,
    [:3:CL:], a sequence number or schema identifier, and any text without
    a line feed. *)
Definition cred_def_id_text (s : string) : Prop :=
  exists did ref tag,
    s = (did ++ ":3:CL:" ++ ref ++ tag)%string
    /\ is_did did = true
    /\ (is_seq_no ref = true \/ schema_id_text ref)
    /\ occurs LF tag = false.

(** Base64 text whose padding completes the last group of four. *)
Definition canonical_base64 (s : string) : Prop :=
  exists body pad,
    s = (body ++ pad)%string /\ all is_base64_char body = true
    /\ ((String.length body mod 4 = 0 /\ pad = EmptyString)
        \/ (String.length body mod 4 = 3 /\ pad = "="%string)
        \/ (String.length body mod 4 = 2 /\ pad = "=="%string)).

(** * Facts *)

(** ** Text *)
Section Text.

Local Open Scope string_scope.

Lemma append_nil_r (s : string) : s ++ "" = s.
Proof. induction s; simpl; congruence. Qed.

Lemma append_assoc (a b c : string) : (a ++ b) ++ c = a ++ b ++ c.
Proof. induction a; simpl; congruence. Qed.

Lemma length_append (a b : string) :
  String.length (a ++ b) = String.length a + String.length b.
Proof. induction a; simpl; congruence. Qed.

Lemma length_zero (s : string) : String.length s = 0 -> s = "".
Proof. destruct s; simpl; [reflexivity | discriminate]. Qed.

Lemma append_same_length (a b c d : string) :
  a ++ b = c ++ d -> String.length a = String.length c -> a = c /\ b = d.
Proof.
  revert c; induction a as [|x a IH]; intros [|y c]; simpl; intros E L;
    try discriminate.
  - split; [reflexivity | exact E].
  - injection E as -> E. injection L as L.
    destruct (IH _ E L) as [-> ->]. split; reflexivity.
Qed.

Lemma all_append (p : ascii -> bool) (a b : string) :
  all p (a ++ b) = all p a && all p b.
Proof. induction a; simpl; [reflexivity|]. rewrite IHa. apply andb_assoc. Qed.

Lemma all_impl (p q : ascii -> bool) (s : string) :
  (forall c, p c = true -> q c = true) -> all p s = true -> all q s = true.
Proof.
  intros H; induction s; simpl; [reflexivity|].
  intros [Hc Hs]%andb_true_iff. rewrite (H _ Hc), (IHs Hs). reflexivity.
Qed.

Lemma all_ext (p q : ascii -> bool) (s : string) :
  (forall c, p c = q c) -> all p s = all q s.
Proof. intros H; induction s; simpl; [reflexivity|]. rewrite H, IHs. reflexivity. Qed.

Lemma occurs_append (c : ascii) (a b : string) :
  occurs c (a ++ b) = occurs c a || occurs c b.
Proof. induction a; simpl; [reflexivity|]. rewrite IHa. apply orb_assoc. Qed.

Lemma all_not_occurs (p : ascii -> bool) (c : ascii) (s : string) :
  p c = false -> all p s = true -> occurs c s = false.
Proof.
  intros Hc; induction s as [|a s IH]; simpl; [reflexivity|].
  intros [Ha Hs]%andb_true_iff. rewrite (IH Hs), orb_false_r.
  destruct (Ascii.eqb_spec a c) as [->|]; [congruence | reflexivity].
Qed.

(** Two texts cut at the first occurrence of a character agree piecewise. *)
Lemma split_at_first (c : ascii) (a b x y : string) :
  occurs c a = false -> occurs c b = false ->
  a ++ String c x = b ++ String c y -> a = b /\ x = y.
Proof.
  revert b; induction a as [|p a IH]; intros [|q b]; simpl; intros Ha Hb E.
  - injection E as ->. split; reflexivity.
  - injection E as E _. subst q. rewrite Ascii.eqb_refl in Hb. discriminate.
  - injection E as E _. subst p. rewrite Ascii.eqb_refl in Ha. discriminate.
  - injection E as -> E.
    apply orb_false_iff in Ha as [_ Ha]. apply orb_false_iff in Hb as [_ Hb].
    destruct (IH _ Ha Hb E) as [-> ->]. split; reflexivity.
Qed.

Lemma strip_spec (l s t : string) : strip l s = Some t <-> s = l ++ t.
Proof.
  revert s; induction l as [|a l IH]; intros s; simpl.
  - split; [intros [= ->]; reflexivity | intros ->; reflexivity].
  - destruct s as [|b s].
    + split; discriminate.
    + destruct (Ascii.eqb_spec a b) as [->|N].
      * rewrite IH. split; [intros ->; reflexivity | intros [= ->]; reflexivity].
      * split; [discriminate | intros [= E _]; congruence].
Qed.

End Text.

(** ** The matcher computes the denotation *)
Section Matcher.

Local Open Scope string_scope.
Local Arguments within : simpl never.

Lemma in_stop (lo : nat) (s t : string) :
  In t (if (lo =? 0)%nat then [s] else []) <-> lo = 0 /\ t = s.
Proof.
  destruct lo; simpl.
  - split; [intros [->|[]]; auto | intros [_ ->]; auto].
  - split; [intros [] | intros [E _]; discriminate].
Qed.

Lemma rep_spec (p : ascii -> bool) (s : string) : forall lo hi t,
  In t (Re.rep p lo hi s) <->
  exists u, s = u ++ t /\ all p u = true
            /\ lo <= String.length u /\ within hi (String.length u).
Proof.
  assert (Stop : forall lo hi (s t : string),
    (lo = 0 /\ t = s) ->
    exists u, s = u ++ t /\ all p u = true
              /\ lo <= String.length u /\ within hi (String.length u)).
  { intros lo hi s1 t [-> ->]. exists "". simpl. repeat split; auto.
    destruct hi; unfold within; simpl; lia. }
  assert (Nil : forall lo hi (s t : string),
    (exists u, s = u ++ t /\ all p u = true
               /\ lo <= String.length u /\ within hi (String.length u)) ->
    (hi = Some 0 \/ s = "" \/ exists c s', s = String c s' /\ p c = false) ->
    lo = 0 /\ t = s).
  { intros lo hi s1 t (u & Hs & Hu & Hlo & Hhi) H. destruct u as [|a u].
    - simpl in *. split; [lia | congruence].
    - exfalso. simpl in *. destruct H as [-> | [-> | (c & s' & -> & Hc)]].
      + unfold within in Hhi. lia.
      + discriminate.
      + injection Hs as -> _. rewrite Hc in Hu. discriminate. }
  assert (Step : forall c s lo hi t, p c = true -> hi <> Some 0 ->
    (exists u, String c s = u ++ t /\ all p u = true
               /\ lo <= String.length u /\ within hi (String.length u)) <->
    (exists u, s = u ++ t /\ all p u = true
               /\ pred lo <= String.length u
               /\ within (option_map pred hi) (String.length u))
    \/ (lo = 0 /\ t = String c s)).
  { intros c s1 lo hi t Hc Hhi0. split.
    - intros (u & Hs & Hu & Hlo & Hhi). destruct u as [|a u].
      + right. simpl in *. split; [lia | congruence].
      + left. simpl in *. injection Hs as -> ->.
        apply andb_true_iff in Hu as [_ Hu]. exists u.
        repeat split; auto; [lia|].
        destruct hi as [h|]; unfold within in *; simpl; lia.
    - intros [(u & -> & Hu & Hlo & Hhi) | H]; [|apply Stop; exact H].
      exists (String c u). simpl. rewrite Hc, Hu.
      repeat split; [lia|].
      destruct hi as [[|h]|]; unfold within in *; simpl in *;
        [congruence | lia | exact I]. }
  induction s as [|c s IH]; intros lo hi t.
  - assert (E : Re.rep p lo hi "" = if (lo =? 0)%nat then [""] else []).
    { destruct hi as [[|h]|]; reflexivity. }
    rewrite E, in_stop. split; [apply Stop|].
    intros H. apply (Nil _ _ _ _ H). auto.
  - destruct hi as [[|h]|].
    + simpl. rewrite in_stop. split; [apply Stop|].
      intros H. apply (Nil _ _ _ _ H). auto.
    + simpl. destruct (p c) eqn:Hc.
      * rewrite in_app_iff, in_stop, IH, (Step c s lo (Some (S h)) t Hc);
          [reflexivity | discriminate].
      * rewrite in_stop. split; [apply Stop|].
        intros H. apply (Nil _ _ _ _ H). right; right; eauto.
    + simpl. destruct (p c) eqn:Hc.
      * rewrite in_app_iff, in_stop, IH, (Step c s lo None t Hc);
          [reflexivity | discriminate].
      * rewrite in_stop. split; [apply Stop|].
        intros H. apply (Nil _ _ _ _ H). right; right; eauto.
Qed.

Lemma run_den (r : Re.regex) (s0 : string) : forall s t,
  In t (Re.run r s0 s) <-> den r s0 s t.
Proof.
  induction r as [l|c|c lo hi|r IH|r1 IH1 r2 IH2|r1 IH1 r2 IH2| |]; intros s t; simpl.
  - destruct (strip l s) as [t'|] eqn:E.
    + apply strip_spec in E. subst s. simpl. split.
      * intros [->|[]]. reflexivity.
      * intros H. left. revert H. clear. revert t t'.
        induction l; simpl; intros t t' H; [congruence|].
        injection H as H. eauto.
    + split; [intros [] | intros ->].
      assert (strip l (l ++ t) = Some t) by (apply strip_spec; reflexivity).
      congruence.
  - destruct s as [|a s]; simpl.
    + split; [intros [] | intros (a & E & _); discriminate].
    + destruct (Re.mem c a) eqn:M; simpl.
      * split; [intros [->|[]]; eauto | intros (b & [= -> ->] & _); auto].
      * split; [intros [] | intros (b & [= -> ->] & M'); congruence].
  - apply rep_spec.
  - rewrite in_app_iff, IH. simpl. intuition.
  - rewrite in_flat_map. split.
    + intros (u & H1 & H2). exists u. rewrite <- IH1, <- IH2. auto.
    + intros (u & H1 & H2). exists u. rewrite IH1, IH2. auto.
  - rewrite in_app_iff, IH1, IH2. reflexivity.
  - destruct (Nat.eqb_spec (String.length s) (String.length s0)); simpl.
    + intuition.
    + intuition.
  - destruct s as [|c [|d s]]; simpl.
    + intuition.
    + destruct (Ascii.eqb_spec c LF) as [->|N]; simpl.
      * intuition.
      * split; [intros [] | intros [_ [E|E]]; [discriminate | congruence]].
    + split; [intros [] | intros [_ [E|E]]; discriminate].
Qed.

(** [Regexp.__call__] returns the value exactly when the pattern has a
    match at the start of the value. *)
Lemma accepts_den (v : Regexp) (s : string) :
  accepts v s <-> exists t, den (Re.prog (Regexp_regex v)) s s t.
Proof.
  unfold accepts, Regexp_call, Re.match_.
  destruct (Re.run _ s s) as [|t l] eqn:E; simpl.
  - split; [discriminate|]. intros (t & H). apply run_den in H.
    rewrite E in H. destruct H.
  - split; [|reflexivity]. intros _. exists t. apply run_den.
    rewrite E. left. reflexivity.
Qed.

Lemma passes_accepts (v : Regexp) (s : string) :
  passes (Regexp_call v s) = true <-> accepts v s.
Proof.
  unfold accepts, Regexp_call. destruct (Re.match_ _ s); simpl.
  - split; reflexivity.
  - split; discriminate.
Qed.

End Matcher.

(** ** Character sets of the patterns and of the specification agree *)
Section Sets.

Lemma mem_chars (s : string) (c : ascii) :
  existsb (fun i => Re.in_item i c) (map Re.Chr (list_ascii_of_string s)) = occurs c s.
Proof. induction s as [|a s IH]; simpl; [reflexivity|]. rewrite IH. reflexivity. Qed.

Lemma mem_b58 (c : ascii) : Re.mem b58 c = is_b58 c.
Proof. apply mem_chars. Qed.

Lemma mem_digit (c : ascii) : Re.mem Re.Digit c = is_digit c.
Proof. reflexivity. Qed.

Lemma mem_digits_dots (c : ascii) :
  Re.mem digits_dots c = (is_digit c || Ascii.eqb c ".").
Proof.
  unfold digits_dots, Re.mem, existsb, Re.in_item, is_digit, between.
  rewrite orb_false_r, (Ascii.eqb_sym "."%char c). reflexivity.
Qed.

Lemma all_mem_b58 (s : string) : all (Re.mem b58) s = all is_b58 s.
Proof. apply all_ext, mem_b58. Qed.

Lemma b58_no_colon (s : string) : all is_b58 s = true -> occurs ":" s = false.
Proof. apply all_not_occurs. reflexivity. Qed.

Lemma b58_no_lf (s : string) : all is_b58 s = true -> occurs LF s = false.
Proof. apply all_not_occurs. reflexivity. Qed.

End Sets.

(** ** Anchored patterns *)
Section Anchored.

Local Open Scope string_scope.
Local Arguments within : simpl never.

Lemma up_to_final_lf_ext (P Q : string -> Prop) (s : string) :
  (forall u, P u <-> Q u) -> up_to_final_lf P s <-> up_to_final_lf Q s.
Proof.
  intros H. unfold up_to_final_lf. rewrite H. split.
  - intros [?|(u & ? & ?)]; [left | right; exists u; rewrite <- H]; auto.
  - intros [?|(u & ? & ?)]; [left | right; exists u; rewrite H]; auto.
Qed.

(** A pure pattern consumes a text of its language, wherever it runs. *)
Lemma den_lang (r : Re.regex) (s0 : string) :
  pure r = true ->
  forall s t, den r s0 s t <-> exists w, s = w ++ t /\ lang r w.
Proof.
  induction r as [l|c|c lo hi|r IH|r1 IH1 r2 IH2|r1 IH1 r2 IH2| |];
    cbn [pure den lang]; intros P s t; try discriminate.
  - split; [intros ->; eauto | intros (w & -> & ->); reflexivity].
  - split.
    + intros (a & -> & M). exists (String a ""). split; [reflexivity | eauto].
    + intros (w & -> & a & -> & M). exists a. auto.
  - split.
    + intros (u & -> & H). exists u. auto.
    + intros (w & -> & H). exists w. auto.
  - rewrite (IH P). split.
    + intros [(w & -> & H) | ->]; [exists w | exists ""]; auto.
    + intros (w & -> & [H | ->]); [left; exists w | right]; auto.
  - apply andb_true_iff in P as [P1 P2]. split.
    + intros (u & H1 & H2). apply (IH1 P1) in H1 as (a & -> & Ha).
      apply (IH2 P2) in H2 as (b & -> & Hb).
      exists (a ++ b). rewrite append_assoc. split; [reflexivity|].
      exists a, b. auto.
    + intros (w & -> & a & b & -> & Ha & Hb). exists (b ++ t). split.
      * apply (IH1 P1). exists a. rewrite append_assoc. auto.
      * apply (IH2 P2). exists b. auto.
  - apply andb_true_iff in P as [P1 P2]. rewrite (IH1 P1), (IH2 P2). split.
    + intros [(w & -> & H) | (w & -> & H)]; exists w; auto.
    + intros (w & -> & [H | H]); [left | right]; exists w; auto.
Qed.

Lemma den_chop_eol (r b : Re.regex) (s0 : string) :
  chop_eol r = Some b ->
  forall s t, den r s0 s t <-> exists u, den b s0 s u /\ den Re.Eol s0 u t.
Proof.
  revert b.
  induction r as [l|c|c lo hi|r IH|r1 IH1 r2 IH2|r1 IH1 r2 IH2| |];
    intros b E; try discriminate.
  cbn [chop_eol] in E.
  assert (Rec : option_map (Re.Cat r1) (chop_eol r2) = Some b ->
                forall s t, den (Re.Cat r1 r2) s0 s t <->
                            exists u, den b s0 s u /\ den Re.Eol s0 u t).
  { destruct (chop_eol r2) as [b2|]; [|discriminate].
    intros [= <-] s t. cbn [den]. split.
    - intros (u & H1 & H2). apply (IH2 b2 eq_refl) in H2 as (u' & H2 & H3).
      exists u'. split; [exists u; auto | exact H3].
    - intros (u' & (u & H1 & H2) & H3). exists u. split; [exact H1|].
      apply (IH2 b2 eq_refl). exists u'. auto. }
  destruct r2; try (exact (Rec E)).
  injection E as <-. intros s t. reflexivity.
Qed.

Lemma den_unanchor (r : Re.regex) (s t : string) :
  den r s s t <-> den (unanchor r) s s t.
Proof.
  destruct r as [| | | |r1 r2| | |]; try reflexivity.
  destruct r1; try reflexivity. cbn [unanchor den]. split.
  - intros (u & [-> _] & H). exact H.
  - intros H. exists s. auto.
Qed.

(** A validator whose pattern is a pure body between [^] (or the start
    of [match]) and [$] accepts the texts of the body, and those texts
    followed by one line feed. *)
Theorem whole_match (v : Regexp) (b : Re.regex) (s : string) :
  body v = Some b -> pure b = true ->
  accepts v s <-> up_to_final_lf (lang b) s.
Proof.
  intros B P. rewrite accepts_den. unfold body in B. split.
  - intros (t & H). apply den_unanchor in H.
    apply (den_chop_eol _ _ _ B) in H as (u & H & [-> E]).
    apply (den_lang _ _ P) in H as (w & -> & L).
    destruct E as [-> | ->].
    + left. rewrite append_nil_r. exact L.
    + right. exists w. auto.
  - assert (G : forall w t, lang b w -> t = "" \/ t = String LF "" ->
                exists t', den (Re.prog (Regexp_regex v)) (w ++ t) (w ++ t) t').
    { intros w t L E. exists t. apply den_unanchor.
      apply (den_chop_eol _ _ _ B). exists t. split.
      - apply (den_lang _ _ P). exists w. auto.
      - split; auto. }
    intros [L | (w & -> & L)].
    + specialize (G s "" L (or_introl eq_refl)).
      rewrite append_nil_r in G. exact G.
    + exact (G w _ L (or_intror eq_refl)).
Qed.

(** A body that cannot consume a line feed matches no text with one. *)
Lemma lang_no_lf (r : Re.regex) :
  lf_free r = true -> forall w, lang r w -> occurs LF w = false.
Proof.
  induction r as [l|c|c lo hi|r IH|r1 IH1 r2 IH2|r1 IH1 r2 IH2| |];
    cbn [lf_free lang]; intros F w L; try contradiction.
  - subst w. apply negb_true_iff, F.
  - destruct L as (a & -> & M). apply negb_true_iff in F.
    apply (all_not_occurs (Re.mem c)); [exact F|]. simpl. rewrite M. reflexivity.
  - apply negb_true_iff in F. apply (all_not_occurs (Re.mem c)); [exact F|].
    apply L.
  - destruct L as [L | ->]; [apply (IH F), L | reflexivity].
  - apply andb_true_iff in F as [F1 F2]. destruct L as (a & b & -> & La & Lb).
    rewrite occurs_append, (IH1 F1 _ La), (IH2 F2 _ Lb). reflexivity.
  - apply andb_true_iff in F as [F1 F2].
    destruct L as [L | L]; [apply (IH1 F1), L | apply (IH2 F2), L].
Qed.

Lemma occurs_final_lf (u : string) : occurs LF (u ++ String LF "") = true.
Proof. rewrite occurs_append. simpl. apply orb_true_r. Qed.

(** On values without a line feed, [up_to_final_lf P] is [P]. *)
Lemma without_lf (P : string -> Prop) (s : string) :
  occurs LF s = false -> up_to_final_lf P s <-> P s.
Proof.
  intros N. unfold up_to_final_lf. split; [|auto].
  intros [H | (u & -> & _)]; [exact H|].
  rewrite occurs_final_lf in N. discriminate.
Qed.

End Anchored.

(** ** DID *)
Section DID.

Local Open Scope string_scope.
Local Arguments within : simpl never.

Lemma is_did_iff (s : string) :
  is_did s = true <->
  all is_b58 s = true /\ 21 <= String.length s <= 22.
Proof.
  unfold is_did. rewrite andb_true_iff, orb_true_iff, !Nat.eqb_eq. intuition lia.
Qed.

(** What the DID validator accepts, exactly: a DID, possibly followed by
    one line feed. *)
Lemma IndyDID_exact (s : string) :
  accepts IndyDID s <-> up_to_final_lf (fun u => is_did u = true) s.
Proof.
  rewrite (whole_match IndyDID (Re.Rep b58 21 (Some 22))) by reflexivity.
  apply up_to_final_lf_ext. intros u. cbn [lang].
  rewrite is_did_iff, all_mem_b58. unfold within. intuition.
Qed.

(** Without a line feed in the value, the validator and the
    specification agree. *)
Lemma IndyDID_without_lf (s : string) :
  occurs LF s = false -> (accepts IndyDID s <-> is_did s = true).
Proof.
  intros N. rewrite IndyDID_exact.
  exact (without_lf (fun u => is_did u = true) s N).
Qed.

End DID.

(** ** SHA-256 *)
Section Hash.

Local Open Scope string_scope.
Local Arguments within : simpl never.

Lemma mem_hash (c : ascii) :
  Re.mem (Re.Set_ [Re.Rng "a" "f"; Re.Rng "A" "F"; Re.Rng "0" "9";
                   Re.Chr "+"; Re.Chr "/"]) c = is_hash_char c.
Proof.
  unfold Re.mem, existsb, Re.in_item, is_hash_char, is_digit, between.
  rewrite orb_false_r, (Ascii.eqb_sym "+"%char c), (Ascii.eqb_sym "/"%char c),
    !orb_assoc.
  reflexivity.
Qed.

Lemma sha256_form_iff (s : string) :
  sha256_form s = true <-> all is_hash_char s = true /\ String.length s = 64.
Proof. unfold sha256_form. rewrite andb_true_iff, Nat.eqb_eq. intuition. Qed.

(** What the hash validator accepts, exactly. *)
Lemma SHA256Hash_exact (s : string) :
  accepts SHA256Hash s <-> up_to_final_lf (fun u => sha256_form u = true) s.
Proof.
  rewrite (whole_match SHA256Hash (Re.Rep _ 64 (Some 64))) by reflexivity.
  apply up_to_final_lf_ext. intros u. cbn [lang].
  rewrite sha256_form_iff, (all_ext _ _ u mem_hash). unfold within. intuition lia.
Qed.

End Hash.

(** ** Version *)
Section Version.

Local Open Scope string_scope.
Local Arguments within : simpl never.

(** What the version validator accepts, exactly. *)
Lemma IndyVersion_exact (s : string) :
  accepts IndyVersion s <-> up_to_final_lf (fun u => is_version u = true) s.
Proof.
  rewrite (whole_match IndyVersion (Re.Rep digits_dots 1 None)) by reflexivity.
  apply up_to_final_lf_ext. intros u. cbn [lang].
  unfold is_version, within.
  rewrite andb_true_iff, negb_true_iff, String.eqb_neq,
    (all_ext _ _ u mem_digits_dots).
  destruct u; simpl; intuition (try lia; try congruence).
Qed.

End Version.

(** ** Base64 *)
Section Base64Facts.

Local Open Scope string_scope.
Local Arguments within : simpl never.

Lemma mem_base64 (c : ascii) :
  Re.mem (Re.Set_ [Re.Rng "a" "z"; Re.Rng "A" "Z"; Re.Rng "0" "9";
                   Re.Chr "+"; Re.Chr "/"]) c = is_base64_char c.
Proof.
  unfold Re.mem, existsb, Re.in_item, is_base64_char, is_digit.
  fold (between "a" "z" c) (between "A" "Z" c) (between "0" "9" c).
  rewrite orb_false_r, (Ascii.eqb_sym "+"%char c), (Ascii.eqb_sym "/"%char c),
    !orb_assoc.
  rewrite (orb_comm (between "a" "z" c)). reflexivity.
Qed.

Lemma padding_iff (pad : string) :
  all (Re.mem (Re.Set_ [Re.Chr "="])) pad = true /\ String.length pad <= 2 <->
  pad = "" \/ pad = "=" \/ pad = "==".
Proof.
  assert (M : forall c, Re.mem (Re.Set_ [Re.Chr "="]) c = true -> c = "="%char).
  { intros c. simpl. rewrite orb_false_r. intros H.
    symmetry. apply Ascii.eqb_eq. exact H. }
  split.
  - intros [A L]. destruct pad as [|a [|b [|c pad]]]; simpl in L; try lia.
    + auto.
    + right; left. cbn [all] in A. apply andb_true_iff in A as [A _].
      rewrite (M _ A). reflexivity.
    + right; right. cbn [all] in A.
      apply andb_true_iff in A as [A B]. apply andb_true_iff in B as [B _].
      rewrite (M _ A), (M _ B). reflexivity.
  - intros [-> | [-> | ->]]; simpl; split; auto; lia.
Qed.

Lemma lang_base64 (w : string) :
  lang (Re.Rep (Re.Set_ [Re.Rng "a" "z"; Re.Rng "A" "Z"; Re.Rng "0" "9";
                         Re.Chr "+"; Re.Chr "/"]) 0 None
        ;; Re.Rep (Re.Set_ [Re.Chr "="]) 0 (Some 2))%re w
  <-> base64_form w.
Proof.
  cbn [lang]. unfold base64_form. split.
  - intros (bd & pad & -> & (Hb & _ & _) & (Hp & _ & Hl)).
    rewrite (all_ext _ _ bd mem_base64) in Hb.
    exists bd, pad. repeat split; auto. apply padding_iff. auto.
  - intros (bd & pad & -> & Hb & Hp). apply padding_iff in Hp as [Hp Hl].
    exists bd, pad. rewrite (all_ext _ _ bd mem_base64). unfold within.
    repeat split; auto; lia.
Qed.

(** What the pattern of the Base64 validator accepts, exactly. *)
Lemma Base64_pattern_exact (s : string) :
  accepts Base64 s <-> up_to_final_lf base64_form s.
Proof.
  rewrite (whole_match Base64 _ s eq_refl eq_refl).
  apply up_to_final_lf_ext, lang_base64.
Qed.

(** The pattern's message has no replacement field: formatting leaves it
    as it is. *)
Lemma Base64_message (s : string) :
  Regexp_format_error Base64 s = "Value is not a valid base64 encoding".
Proof. reflexivity. Qed.

(** The two stages of [Base64.__call__]. *)
Lemma Base64_call_stages (value : option string) :
  Base64_call value =
  match value with
  | None => ValidationError "Value is not a valid base64 encoding"
  | Some s =>
      if (String.length s mod 4 =? 0)%nat
      then match Re.match_ (Regexp_regex Base64) s with
           | Some _ => Return (Some s)
           | None => ValidationError "Value is not a valid base64 encoding"
           end
      else ValidationError "Value is not a valid base64 encoding"
  end.
Proof.
  destruct value as [s|]; [|reflexivity]. unfold Base64_call.
  destruct (String.length s mod 4 =? 0)%nat; [|reflexivity].
  unfold Regexp_call. destruct (Re.match_ _ s); reflexivity.
Qed.

(** What the Base64 validator accepts, exactly. *)
Lemma Base64_exact (s : string) :
  Base64_call (Some s) = Return (Some s) <->
  String.length s mod 4 = 0 /\ up_to_final_lf base64_form s.
Proof.
  rewrite <- Base64_pattern_exact. unfold accepts, Base64_call.
  destruct (Nat.eqb_spec (String.length s mod 4) 0) as [E|E]; simpl.
  - destruct (Regexp_call Base64 s) as [v|msg] eqn:R.
    + assert (v = s) as ->.
      { unfold Regexp_call in R. destruct (Re.match_ _ s); congruence. }
      intuition.
    + split; [discriminate | intros [_ H]; discriminate].
  - split; [discriminate | intros [H _]; contradiction].
Qed.

End Base64Facts.

(** ** ISO-8601 datetime *)
Section DateTime.

Local Open Scope string_scope.
Local Arguments within : simpl never.

Lemma digits_iff (n : nat) (w : string) :
  digits n w = true <-> String.length w = n /\ all is_digit w = true.
Proof. unfold digits. rewrite andb_true_iff, Nat.eqb_eq. reflexivity. Qed.

Lemma lang_dd (w : string) : lang dd w <-> digits 2 w = true.
Proof.
  unfold dd. cbn [lang]. rewrite digits_iff. split.
  - intros (a & b & -> & (x & -> & Hx) & (y & -> & Hy)).
    rewrite mem_digit in Hx, Hy. simpl. rewrite Hx, Hy. auto.
  - intros [L A]. destruct w as [|x [|y [|z w]]]; simpl in L; try discriminate.
    simpl in A. apply andb_true_iff in A as [Hx A].
    apply andb_true_iff in A as [Hy _].
    exists (String x ""), (String y ""). split; [reflexivity|].
    split; [exists x | exists y]; auto.
Qed.

Lemma lang_digits (n : nat) (w : string) :
  lang (Re.Rep Re.Digit n (Some n)) w <-> digits n w = true.
Proof.
  cbn [lang]. rewrite digits_iff, (all_ext _ _ w mem_digit). unfold within.
  intuition lia.
Qed.

Lemma lang_seconds (w : string) : lang seconds_group w <-> seconds_form w.
Proof.
  unfold seconds_group, seconds_form. cbn [lang]. split.
  - intros [(a & b & -> & -> & ss & c & -> & Hss & Hc) | ->]; [right | left; auto].
    apply lang_dd in Hss. exists ss. split; [exact Hss|].
    destruct Hc as [(d & f & -> & -> & Hf & Hlo & Hhi) | ->].
    + right. exists f. rewrite (all_ext _ _ f mem_digit) in Hf.
      unfold within in Hhi. auto.
    + left. rewrite append_nil_r. reflexivity.
  - intros [-> | (ss & Hss & H)]; [right; reflexivity | left].
    apply lang_dd in Hss. exists ":".
    destruct H as [-> | (f & -> & Hl & Hf)].
    + exists ss. split; [reflexivity|]. split; [reflexivity|].
      exists ss, "". rewrite append_nil_r. auto.
    + exists (ss ++ "." ++ f). split; [reflexivity|]. split; [reflexivity|].
      exists ss, ("." ++ f). split; [reflexivity|]. split; [exact Hss|].
      left. exists ".", f. rewrite (all_ext _ _ f mem_digit). unfold within.
      intuition.
Qed.

Lemma mem_sign (c : ascii) :
  Re.mem (Re.Set_ [Re.Chr "+"; Re.Chr "-"]) c = true <-> c = "+"%char \/ c = "-"%char.
Proof.
  unfold Re.mem, existsb, Re.in_item.
  rewrite orb_false_r, orb_true_iff, !Ascii.eqb_eq. intuition.
Qed.

Lemma mem_separator (c : ascii) :
  Re.mem (Re.Set_ [Re.Chr "T"; Re.Chr " "]) c = true <-> c = "T"%char \/ c = " "%char.
Proof.
  unfold Re.mem, existsb, Re.in_item.
  rewrite orb_false_r, orb_true_iff, !Ascii.eqb_eq. intuition.
Qed.

Lemma lang_zone (w : string) : lang zone_group w <-> zone_form w.
Proof.
  unfold zone_group, zone_form. cbn [lang]. split.
  - intros [(a & b & -> & (sg & -> & Hsg) & hh & c & -> & Hhh
             & k & mm & -> & Hk & Hmm) | ->]; [right | left; reflexivity].
    apply lang_dd in Hhh, Hmm. apply mem_sign in Hsg.
    exists sg, hh, mm. repeat split; auto.
    destruct Hk as [-> | ->]; [left | right]; reflexivity.
  - intros [-> | (sg & hh & mm & Hsg & Hhh & Hmm & H)]; [right; reflexivity | left].
    apply lang_dd in Hhh, Hmm. apply mem_sign in Hsg.
    destruct H as [-> | ->].
    + exists (String sg ""), (hh ++ ":" ++ mm). split; [reflexivity|].
      split; [exists sg; auto|].
      exists hh, (":" ++ mm). split; [reflexivity|]. split; [exact Hhh|].
      exists ":", mm. auto.
    + exists (String sg ""), (hh ++ mm). split; [reflexivity|].
      split; [exists sg; auto|].
      exists hh, mm. split; [reflexivity|]. split; [exact Hhh|].
      exists "", mm. auto.
Qed.

(** The pattern between its anchors. *)
Lemma body_IndyISO8601DateTime :
  body IndyISO8601DateTime =
  Some (Re.Rep Re.Digit 4 (Some 4) ;; Re.Lit "-" ;; dd ;; Re.Lit "-" ;; dd
        ;; Re.Any (Re.Set_ [Re.Chr "T"; Re.Chr " "]) ;; dd ;; Re.Lit ":" ;; dd
        ;; seconds_group ;; zone_group)%re.
Proof. reflexivity. Qed.

Lemma lang_iso8601 (w : string) :
  lang (Re.Rep Re.Digit 4 (Some 4) ;; Re.Lit "-" ;; dd ;; Re.Lit "-" ;; dd
        ;; Re.Any (Re.Set_ [Re.Chr "T"; Re.Chr " "]) ;; dd ;; Re.Lit ":" ;; dd
        ;; seconds_group ;; zone_group)%re w
  <-> iso8601_form w.
Proof.
  unfold iso8601_form. split.
  - intros (yyyy & r1 & -> & Hy & d1 & r2 & -> & E1 & mo & r3 & -> & Hmo
            & d2 & r4 & -> & E2 & dy & r5 & -> & Hdy
            & sp & r6 & -> & (sep & -> & Hsep)
            & hh & r7 & -> & Hhh & c & r8 & -> & E3 & mi & r9 & -> & Hmi
            & sec & tz & -> & Hsec & Htz).
    cbn [lang] in E1, E2, E3. subst d1 d2 c.
    apply lang_digits in Hy. apply lang_dd in Hmo, Hdy, Hhh, Hmi.
    apply mem_separator in Hsep. apply lang_seconds in Hsec.
    apply lang_zone in Htz.
    exists yyyy, mo, dy, sep, hh, mi, sec, tz. repeat split; auto.
  - intros (yyyy & mo & dy & sep & hh & mi & sec & tz & -> & Hy & Hmo & Hdy
            & Hsep & Hhh & Hmi & Hsec & Htz).
    apply lang_digits in Hy. apply lang_dd in Hmo, Hdy, Hhh, Hmi.
    apply mem_separator in Hsep. apply lang_seconds in Hsec.
    apply lang_zone in Htz.
    exists yyyy, ("-" ++ mo ++ "-" ++ dy ++ String sep (hh ++ ":" ++ mi ++ sec ++ tz)).
    split; [reflexivity|]. split; [exact Hy|].
    exists "-", (mo ++ "-" ++ dy ++ String sep (hh ++ ":" ++ mi ++ sec ++ tz)).
    split; [reflexivity|]. split; [reflexivity|].
    exists mo, ("-" ++ dy ++ String sep (hh ++ ":" ++ mi ++ sec ++ tz)).
    split; [reflexivity|]. split; [exact Hmo|].
    exists "-", (dy ++ String sep (hh ++ ":" ++ mi ++ sec ++ tz)).
    split; [reflexivity|]. split; [reflexivity|].
    exists dy, (String sep (hh ++ ":" ++ mi ++ sec ++ tz)).
    split; [reflexivity|]. split; [exact Hdy|].
    exists (String sep ""), (hh ++ ":" ++ mi ++ sec ++ tz).
    split; [reflexivity|]. split; [exists sep; auto|].
    exists hh, (":" ++ mi ++ sec ++ tz).
    split; [reflexivity|]. split; [exact Hhh|].
    exists ":", (mi ++ sec ++ tz).
    split; [reflexivity|]. split; [reflexivity|].
    exists mi, (sec ++ tz).
    split; [reflexivity|]. split; [exact Hmi|].
    exists sec, tz. auto.
Qed.

(** What the datetime validator accepts among the texts of code points
    below 256, where [\d] is 0-9.  (With the decimal digits of other
    scripts in place of 0-9, Python accepts further texts.) *)
Lemma IndyISO8601DateTime_exact (s : string) :
  accepts IndyISO8601DateTime s <-> up_to_final_lf iso8601_form s.
Proof.
  rewrite (whole_match _ _ s body_IndyISO8601DateTime eq_refl).
  apply up_to_final_lf_ext, lang_iso8601.
Qed.

End DateTime.

(** ** Credential-definition identifier *)
Section CredDef.

Local Open Scope string_scope.
Local Arguments within : simpl never.

Lemma not_passes (v : Regexp) (s : string) :
  passes (Regexp_call v s) = false <-> ~ accepts v s.
Proof.
  rewrite <- passes_accepts. destruct (passes _); split; congruence.
Qed.

Lemma lang_b58 (w : string) : lang (Re.Rep b58 21 (Some 22)) w <-> is_did w = true.
Proof.
  cbn [lang]. rewrite is_did_iff, all_mem_b58. unfold within. intuition.
Qed.

Lemma did_no_colon (d : string) : is_did d = true -> occurs ":" d = false.
Proof. intros [H _]%is_did_iff. apply b58_no_colon, H. Qed.

Lemma mem_dot (c : ascii) : Re.mem Re.Dot c = negb (Ascii.eqb c LF).
Proof. reflexivity. Qed.

Lemma all_dot (w : string) : all (Re.mem Re.Dot) w = negb (occurs LF w).
Proof.
  induction w as [|a w IH]; [reflexivity|]. cbn [all occurs].
  rewrite IH, mem_dot, negb_orb. reflexivity.
Qed.

Lemma lang_dot_plus (w : string) :
  lang dot_plus w <-> w <> "" /\ occurs LF w = false.
Proof.
  unfold dot_plus. cbn [lang]. rewrite all_dot, negb_true_iff. unfold within.
  destruct w; simpl; intuition (try lia; try congruence).
Qed.

Lemma lang_schema_txn (w : string) : lang schema_txn w <-> is_seq_no w = true.
Proof.
  assert (M1 : forall c, Re.mem (Re.Set_ [Re.Rng "1" "9"]) c = between "1" "9" c).
  { intros c. unfold Re.mem, existsb, Re.in_item, between. apply orb_false_r. }
  assert (M0 : forall c, Re.mem (Re.Set_ [Re.Rng "0" "9"]) c = is_digit c).
  { intros c. unfold Re.mem, existsb, Re.in_item, is_digit, between.
    apply orb_false_r. }
  unfold schema_txn. cbn [lang]. split.
  - intros (a & b & -> & (x & -> & Hx) & (Hb & _ & _)).
    rewrite M1 in Hx. rewrite (all_ext _ _ b M0) in Hb.
    simpl. rewrite Hx, Hb. reflexivity.
  - destruct w as [|x b]; [discriminate|]. cbn [is_seq_no].
    intros [Hx Hb]%andb_true_iff.
    exists (String x ""), b. split; [reflexivity|]. split.
    + exists x. rewrite M1. auto.
    + rewrite (all_ext _ _ b M0). unfold within. repeat split; auto; lia.
Qed.

Lemma lang_version (w : string) :
  lang (Re.Rep digits_dots 1 None) w <-> is_version w = true.
Proof.
  cbn [lang]. unfold is_version, within.
  rewrite andb_true_iff, negb_true_iff, String.eqb_neq,
    (all_ext _ _ w mem_digits_dots).
  destruct w; simpl; intuition (try lia; try congruence).
Qed.

(** The second alternative matches schema identifiers whose name has no
    line feed. *)
Lemma lang_schema_id (w : string) :
  lang schema_id w <->
  exists did name ver,
    w = did ++ ":2:" ++ name ++ ":" ++ ver
    /\ is_did did = true /\ (name <> "" /\ occurs LF name = false)
    /\ is_version ver = true.
Proof.
  unfold schema_id. split.
  - intros (did & r1 & -> & Hd & m & r2 & -> & E1 & name & r3 & -> & Hn
            & c & ver & -> & E2 & Hv).
    cbn [lang] in E1, E2. subst m c.
    apply lang_b58 in Hd. apply lang_dot_plus in Hn. apply lang_version in Hv.
    exists did, name, ver. auto.
  - intros (did & name & ver & -> & Hd & Hn & Hv).
    apply lang_b58 in Hd. apply lang_dot_plus in Hn. apply lang_version in Hv.
    exists did, (":2:" ++ name ++ ":" ++ ver). split; [reflexivity|].
    split; [exact Hd|].
    exists ":2:", (name ++ ":" ++ ver). split; [reflexivity|].
    split; [reflexivity|].
    exists name, (":" ++ ver). split; [reflexivity|]. split; [exact Hn|].
    exists ":", ver. split; [reflexivity|]. split; [reflexivity | exact Hv].
Qed.

(** What the schema-ID validator accepts, exactly. *)
Lemma IndySchemaId_exact (s : string) :
  accepts IndySchemaId s <->
  up_to_final_lf
    (fun w => exists did name ver,
        w = did ++ ":2:" ++ name ++ ":" ++ ver
        /\ is_did did = true /\ (name <> "" /\ occurs LF name = false)
        /\ is_version ver = true) s.
Proof.
  rewrite (whole_match IndySchemaId schema_id s eq_refl eq_refl).
  apply up_to_final_lf_ext, lang_schema_id.
Qed.

Lemma lang_schema_ref (w : string) :
  lang (Re.Alt schema_txn schema_id) w -> schema_ref w.
Proof.
  intros [H | H].
  - left. apply lang_schema_txn, H.
  - right. apply lang_schema_id in H as (did & name & ver & -> & Hd & [Hn _] & Hv).
    exists did, name, ver. auto.
Qed.

Lemma body_IndyCredDefId :
  body IndyCredDefId =
  Some (Re.Rep b58 21 (Some 22) ;; Re.Lit ":3" ;; Re.Lit ":CL" ;; Re.Lit ":"
        ;; Re.Alt schema_txn schema_id ;; Re.Opt dot_plus)%re.
Proof. reflexivity. Qed.

(** The texts between the start of the match and [$]. *)
Lemma lang_cred_def (w : string) :
  lang (Re.Rep b58 21 (Some 22) ;; Re.Lit ":3" ;; Re.Lit ":CL" ;; Re.Lit ":"
        ;; Re.Alt schema_txn schema_id ;; Re.Opt dot_plus)%re w
  <-> exists did ref tag,
        w = did ++ ":3:CL:" ++ ref ++ tag
        /\ is_did did = true
        /\ lang (Re.Alt schema_txn schema_id) ref
        /\ occurs LF tag = false.
Proof.
  split.
  - intros (did & r1 & -> & Hd & m1 & r2 & -> & E1 & m2 & r3 & -> & E2
            & m3 & r4 & -> & E3 & ref & tag & -> & Hr & Ht).
    cbn [lang] in E1, E2, E3. subst m1 m2 m3. apply lang_b58 in Hd.
    exists did, ref, tag. repeat split; auto.
    destruct Ht as [Ht | ->]; [|reflexivity].
    apply lang_dot_plus in Ht. apply Ht.
  - intros (did & ref & tag & -> & Hd & Hr & Ht). apply lang_b58 in Hd.
    exists did, (":3:CL:" ++ ref ++ tag). split; [reflexivity|].
    split; [exact Hd|].
    exists ":3", (":CL:" ++ ref ++ tag). split; [reflexivity|].
    split; [reflexivity|].
    exists ":CL", (":" ++ ref ++ tag). split; [reflexivity|].
    split; [reflexivity|].
    exists ":", (ref ++ tag). split; [reflexivity|]. split; [reflexivity|].
    exists ref, tag. split; [reflexivity|]. split; [exact Hr|].
    destruct tag as [|c tag]; [right; reflexivity | left].
    apply lang_dot_plus. split; [discriminate | exact Ht].
Qed.

(** What the credential-definition validator accepts, exactly. *)
Lemma IndyCredDefId_exact (s : string) :
  accepts IndyCredDefId s <->
  up_to_final_lf
    (fun w => exists did ref tag,
        w = did ++ ":3:CL:" ++ ref ++ tag
        /\ is_did did = true
        /\ lang (Re.Alt schema_txn schema_id) ref
        /\ occurs LF tag = false) s.
Proof.
  rewrite (whole_match _ _ s body_IndyCredDefId eq_refl).
  apply up_to_final_lf_ext, lang_cred_def.
Qed.

(** Every accepted value starts with a DID, [:3:CL:] and a schema
    reference. *)
Lemma cred_def_shape (s : string) :
  accepts IndyCredDefId s ->
  exists did ref tail,
    s = did ++ ":3:CL:" ++ ref ++ tail
    /\ is_did did = true /\ schema_ref ref.
Proof.
  intros [H | (w & -> & H)]%IndyCredDefId_exact;
    destruct H as (did & ref & tag & -> & Hd & Hr & _);
    apply lang_schema_ref in Hr.
  - exists did, ref, tag. auto.
  - exists did, ref, (tag ++ String LF ""). split; [|auto].
    rewrite !append_assoc. reflexivity.
Qed.

(** The DID and the text after its colon are determined by the value. *)
Lemma did_prefix_unique (d1 d2 x y : string) :
  is_did d1 = true -> is_did d2 = true ->
  d1 ++ String ":" x = d2 ++ String ":" y -> d1 = d2 /\ x = y.
Proof.
  intros H1 H2. apply split_at_first; apply did_no_colon; assumption.
Qed.

(** A value whose text after [:3:CL:] does not begin with a schema
    reference is rejected. *)
Lemma rejects_without_schema_ref (did rest : string) :
  is_did did = true ->
  (forall p, starts_with rest p -> ~ schema_ref p) ->
  ~ accepts IndyCredDefId (did ++ ":3:CL:" ++ rest).
Proof.
  intros Hd N A.
  apply cred_def_shape in A as (d & ref & tail & E & Hd' & Hr).
  apply (did_prefix_unique _ _ _ _ Hd Hd') in E as [_ E].
  injection E as E. apply (N ref); [|exact Hr]. exists tail. exact E.
Qed.


(** Texts with no line feed before their last character. *)
Lemma lf_only_last_split (t : string) :
  lf_only_last t = true ->
  occurs LF t = false
  \/ exists core, t = core ++ String LF "" /\ occurs LF core = false.
Proof.
  induction t as [|c t IH]; [left; reflexivity|]. destruct t as [|d t].
  - intros _. destruct (Ascii.eqb_spec c LF) as [-> | N].
    + right. exists "". auto.
    + left. simpl. apply Ascii.eqb_neq in N. rewrite N. reflexivity.
  - cbn [lf_only_last]. intros [Hc Ht]%andb_true_iff.
    apply negb_true_iff in Hc.
    destruct (IH Ht) as [H | (core & E & H)].
    + left. cbn [occurs] in *. rewrite Hc. exact H.
    + right. exists (String c core). split.
      * simpl. rewrite <- E. reflexivity.
      * cbn [occurs]. rewrite Hc. exact H.
Qed.

End CredDef.

(** ** Integer epoch *)
Section Epoch.

Local Open Scope Z_scope.

Lemma IntEpoch_accepts (value : Z) :
  Range_call IntEpoch value = Return value <-> 0 <= value <= 2147483647.
Proof.
  unfold Range_call, IntEpoch, below, above, Range_min, Range_max.
  destruct (Z.ltb_spec value 0) as [L|L].
  - split; [discriminate | lia].
  - rewrite Z.gtb_ltb. destruct (Z.ltb_spec 2147483647 value) as [G|G].
    + split; [discriminate | lia].
    + split; [lia | reflexivity].
Qed.

(** C4.  The integer epoch validator returns an integer exactly when it
    lies between 0 and 2147483647, both bounds included: -1 is rejected,
    0 and 2147483647 are returned, 2147483648 is rejected. *)
Theorem IntEpoch_bounds (value : Z) :
  (Range_call IntEpoch value = Return value <-> 0 <= value <= 2147483647)
  /\ passes (Range_call IntEpoch (-1)) = false
  /\ Range_call IntEpoch 0 = Return 0
  /\ Range_call IntEpoch 2147483647 = Return 2147483647
  /\ passes (Range_call IntEpoch 2147483648) = false.
Proof.
  split; [apply IntEpoch_accepts | repeat split; reflexivity].
Qed.

(** The message of a rejection names the rejected integer. *)
Lemma IntEpoch_message (value : Z) :
  Range_call IntEpoch value = Return value
  \/ Range_call IntEpoch value =
     ValidationError
       ("Value " ++ str_of_Z value ++ " is not a valid integer epoch time.")%string.
Proof.
  unfold Range_call, IntEpoch, below, above, Range_min, Range_max.
  destruct (value <? 0); [right; reflexivity|].
  destruct (value >? 2147483647); [right; reflexivity | left; reflexivity].
Qed.

End Epoch.

(** ** Predicate operator *)
Section Predicate.

Local Open Scope string_scope.

(** C7.  The predicate validator returns a text exactly when it equals
    one of "<", "<=", ">=", ">", with no trimming; every other text, for
    instance "==", is rejected with a message that lists the choices. *)
Theorem IndyPredicate_exact_choice (value : string) :
  (OneOf_call IndyPredicate value = Return value <->
   value = "<" \/ value = "<=" \/ value = ">=" \/ value = ">")
  /\ (OneOf_call IndyPredicate value = Return value
      \/ OneOf_call IndyPredicate value =
         ValidationError ("Value " ++ value ++ " must be one of <, <=, >=, >."))
  /\ OneOf_call IndyPredicate "<=" = Return "<="
  /\ OneOf_call IndyPredicate "==" =
     ValidationError "Value == must be one of <, <=, >=, >."
  /\ passes (OneOf_call IndyPredicate " <") = false
  /\ passes (OneOf_call IndyPredicate "<= ") = false.
Proof.
  split; [|split; [|repeat split; reflexivity]].
  - unfold OneOf_call, IndyPredicate, OneOf_choices, existsb.
    destruct (String.eqb_spec value "<") as [->|N1]; [simpl; intuition|].
    destruct (String.eqb_spec value "<=") as [->|N2]; [simpl; intuition|].
    destruct (String.eqb_spec value ">=") as [->|N3]; [simpl; intuition|].
    destruct (String.eqb_spec value ">") as [->|N4]; [simpl; intuition|].
    simpl. split; [discriminate | intuition].
  - unfold OneOf_call. destruct (existsb _ _); [left | right]; reflexivity.
Qed.

End Predicate.

(** ** Messages *)
Section Messages.

Local Open Scope string_scope.

Lemma embeds_occurs (c : ascii) (msg : string) :
  embeds (String c "") msg -> occurs c msg = true.
Proof.
  intros (a & b & ->). rewrite occurs_append. simpl.
  rewrite Ascii.eqb_refl. apply orb_true_r.
Qed.

(** A rejection of the hash validator always carries the same text. *)
Lemma SHA256Hash_message (value : string) :
  Regexp_call SHA256Hash value = Return value
  \/ Regexp_call SHA256Hash value =
     ValidationError "Value is not a valid (binhex-encoded) SHA-256 hash".
Proof.
  unfold Regexp_call. destruct (Re.match_ _ value); [left | right]; reflexivity.
Qed.

(** A validator whose template is [Value {input} ...] reports the value. *)
Lemma reports_input_template (v : Regexp) (rest : string) :
  (forall value, Regexp_format_error v value = "Value " ++ value ++ rest) ->
  reports_input v.
Proof.
  intros F value msg. unfold Regexp_call.
  destruct (Re.match_ _ value); [discriminate|]. intros [= <-].
  exists "Value ", rest. apply F.
Qed.

(** C8, as stated, fails: the hash validator rejects the one-character
    text "z" with a message in which no "z" occurs. *)
Lemma identifier_validators_not_all_report_input :
  ~ Forall reports_input identifier_validators.
Proof.
  intros H. unfold identifier_validators in H.
  do 5 (apply Forall_inv_tail in H). apply Forall_inv in H.
  specialize (H "z" _ eq_refl). apply embeds_occurs in H. discriminate H.
Qed.

(** C8, amended.  Every rejection by the DID, schema-ID,
    credential-definition-ID, version and ISO-8601 datetime validators
    carries a message that contains the rejected value, and their
    templates have the field [{input}]; the template of the hash
    validator has no such field and its message is a fixed text. *)
Theorem identifier_messages :
  Forall reports_input
    [IndyDID; IndySchemaId; IndyCredDefId; IndyVersion; IndyISO8601DateTime]
  /\ forallb (fun v => has_field "input" (Regexp_error v))
       [IndyDID; IndySchemaId; IndyCredDefId; IndyVersion; IndyISO8601DateTime]
     = true
  /\ has_field "input" (Regexp_error SHA256Hash) = false
  /\ (forall value,
        Regexp_call SHA256Hash value = Return value
        \/ Regexp_call SHA256Hash value =
           ValidationError "Value is not a valid (binhex-encoded) SHA-256 hash").
Proof.
  split; [|split; [reflexivity | split; [reflexivity | exact SHA256Hash_message]]].
  repeat apply Forall_cons; try apply Forall_nil.
  - apply (reports_input_template _ " is not an indy decentralized identifier (DID).").
    reflexivity.
  - apply (reports_input_template _ " is not an indy schema identifier.").
    reflexivity.
  - apply (reports_input_template _ " is not an indy credential definition identifier.").
    reflexivity.
  - apply (reports_input_template _ " is not an indy version (use only digits and '.').").
    reflexivity.
  - apply (reports_input_template _ " is not a date in valid format.").
    reflexivity.
Qed.

Lemma identifier_messages_witness :
  embeds "0" "Value 0 is not an indy decentralized identifier (DID).".
Proof.
  apply (Forall_inv (proj1 identifier_messages) "0"). reflexivity.
Defined.

End Messages.

(** ** The catalog *)
Section Catalog.

Local Open Scope Z_scope.

Lemma static_examples :
  self_consistent (Entry INDY_DID) = true
  /\ self_consistent (Entry INDY_CRED_DEF_ID) = true
  /\ self_consistent (Entry INDY_VERSION) = true
  /\ self_consistent (Entry INDY_SCHEMA_ID) = true
  /\ self_consistent (Entry INDY_PREDICATE) = true
  /\ self_consistent (Entry BASE64) = true
  /\ self_consistent (Entry SHA256) = true.
Proof. repeat split; vm_compute; reflexivity. Qed.

Lemma INT_EPOCH_example (now : Z) :
  self_consistent (Entry (INT_EPOCH now)) = true <-> 0 <= now <= 2147483647.
Proof.
  change (passes (Range_call IntEpoch now) = true <-> 0 <= now <= 2147483647).
  rewrite <- (IntEpoch_accepts now).
  destruct (Range_call IntEpoch now) as [v|msg] eqn:E; simpl.
  - assert (v = now) as ->; [|intuition].
    revert E. unfold Range_call.
    destruct (below _ _); [discriminate|].
    destruct (above _ _); [discriminate|]. congruence.
  - split; discriminate.
Qed.

(** C9.  The examples of INDY_DID, INDY_CRED_DEF_ID, INDY_VERSION,
    INDY_SCHEMA_ID, INDY_PREDICATE, BASE64 and SHA256 pass their
    validators, and the example of INT_EPOCH, the clock reading taken when
    the module loads, passes while that reading lies in 0..2147483647.
    Read at 03:14:08 UTC on 19 January 2038 (epoch second 2147483648),
    the example of INT_EPOCH is rejected by its own validator, so the
    catalog is not self-consistent, whatever its other entries do. *)
Theorem INT_EPOCH_example_rejected_from_2038 :
  Range_call IntEpoch (IntEpoch_EXAMPLE 2147483648)
    = ValidationError "Value 2147483648 is not a valid integer epoch time."
  /\ self_consistent (Entry (INT_EPOCH 2147483648)) = false
  /\ (forall epoch_to_str now2,
        catalog_self_consistent epoch_to_str 2147483648 now2 = false)
  /\ (forall now,
        self_consistent (Entry (INT_EPOCH now)) = true <-> 0 <= now <= 2147483647)
  /\ self_consistent (Entry INDY_DID) = true
  /\ self_consistent (Entry INDY_CRED_DEF_ID) = true
  /\ self_consistent (Entry INDY_VERSION) = true
  /\ self_consistent (Entry INDY_SCHEMA_ID) = true
  /\ self_consistent (Entry INDY_PREDICATE) = true
  /\ self_consistent (Entry BASE64) = true
  /\ self_consistent (Entry SHA256) = true.
Proof.
  split; [vm_compute; reflexivity|]. split; [reflexivity|].
  split; [|split; [exact INT_EPOCH_example | exact static_examples]].
  intros epoch_to_str now2. unfold catalog_self_consistent, catalog.
  cbn [forallb snd].
  change (self_consistent (Entry (INT_EPOCH 2147483648))) with false.
  reflexivity.
Qed.

End Catalog.

(** ** A final line feed passes [$]

    Without MULTILINE, [$] holds at the end of the text and also just
    before a line feed that ends the text.  The validators anchored with
    [$] therefore accept, besides the texts of their format, those texts
    followed by one line feed. *)
Section FinalLineFeed.

Local Open Scope string_scope.

(** C3.  The DID validator accepts the DIDs (21 or 22 characters of the
    base58 alphabet) and also the DIDs followed by one line feed, nothing
    else.  So it accepts the 23-character text made of the DID
    "WgWxqztrNooG92RXvxSTWv" and a line feed, which is not a DID: it is
    neither 21 or 22 characters long nor drawn from the base58 alphabet. *)
Theorem IndyDID_accepts_final_line_feed :
  (forall s, Regexp_call IndyDID s = Return s <->
             up_to_final_lf (fun u => is_did u = true) s)
  /\ Regexp_call IndyDID ("WgWxqztrNooG92RXvxSTWv" ++ String LF "")
       = Return ("WgWxqztrNooG92RXvxSTWv" ++ String LF "")
  /\ String.length ("WgWxqztrNooG92RXvxSTWv" ++ String LF "") = 23
  /\ all is_b58 ("WgWxqztrNooG92RXvxSTWv" ++ String LF "") = false
  /\ is_did ("WgWxqztrNooG92RXvxSTWv" ++ String LF "") = false.
Proof.
  split; [exact IndyDID_exact|].
  repeat split; vm_compute; reflexivity.
Qed.

(** The rest of the DID format holds: the example is accepted, on values
    without a line feed acceptance is being a DID, base58 texts of 20 or
    23 characters are rejected, and so is every text with a "0". *)
Lemma IndyDID_format :
  accepts IndyDID "WgWxqztrNooG92RXvxSTWv"
  /\ (forall s, occurs LF s = false -> (accepts IndyDID s <-> is_did s = true))
  /\ (forall s, all is_b58 s = true ->
                String.length s = 20 \/ String.length s = 23 ->
                passes (Regexp_call IndyDID s) = false)
  /\ (forall s, occurs "0" s = true -> passes (Regexp_call IndyDID s) = false).
Proof.
  split; [reflexivity|]. split; [exact IndyDID_without_lf|]. split.
  - intros s B L. apply not_passes. rewrite IndyDID_without_lf.
    + rewrite is_did_iff. intros [_ H]. lia.
    + apply b58_no_lf, B.
  - intros s Z. apply not_passes. rewrite IndyDID_exact.
    intros [D | (u & -> & D)]; apply is_did_iff in D as [D _].
    + rewrite (all_not_occurs is_b58 "0" s eq_refl D) in Z. discriminate.
    + rewrite occurs_append, (all_not_occurs is_b58 "0" u eq_refl D) in Z.
      discriminate.
Qed.

(** C6.  The hash validator accepts the texts of exactly 64 characters
    of the class [a-fA-F0-9+/] and also those texts followed by one line
    feed, nothing else.  So it accepts the 65-character text made of its
    example and a line feed, which is not 64 characters long. *)
Theorem SHA256Hash_accepts_final_line_feed :
  (forall s, Regexp_call SHA256Hash s = Return s <->
             up_to_final_lf (fun u => sha256_form u = true) s)
  /\ Regexp_call SHA256Hash (SHA256Hash_EXAMPLE ++ String LF "")
       = Return (SHA256Hash_EXAMPLE ++ String LF "")
  /\ String.length (SHA256Hash_EXAMPLE ++ String LF "") = 65
  /\ all is_hash_char (SHA256Hash_EXAMPLE ++ String LF "") = false
  /\ sha256_form (SHA256Hash_EXAMPLE ++ String LF "") = false.
Proof.
  split; [exact SHA256Hash_exact|].
  repeat split; vm_compute; reflexivity.
Qed.

(** The rest of the hash format holds: on values without a line feed
    acceptance is having 64 characters of the class, with no decoding, so
    that texts with "+" and "/" pass. *)
Lemma SHA256Hash_format :
  (forall s, occurs LF s = false -> (accepts SHA256Hash s <-> sha256_form s = true))
  /\ accepts SHA256Hash
       "++++++++++++++++++++++++++++++++////////////////////////////////".
Proof.
  split; [|reflexivity].
  intros s N. rewrite SHA256Hash_exact.
  exact (without_lf (fun u => sha256_form u = true) s N).
Qed.

Lemma base64_form_no_lf (s : string) : base64_form s -> occurs LF s = false.
Proof. intros H%lang_base64. revert H. apply lang_no_lf. reflexivity. Qed.

(** C1.  The Base64 validator returns a text exactly when its length is
    a multiple of 4 and it is made of base64 characters and 0 to 2 padding
    signs, or is such a text followed by one line feed.  So it returns
    the 4-character text "abc" followed by a line feed, which passes the
    length test but is not made of base64 characters and padding. *)
Theorem Base64_accepts_final_line_feed :
  (forall s, Base64_call (Some s) = Return (Some s) <->
             String.length s mod 4 = 0 /\ up_to_final_lf base64_form s)
  /\ Base64_call (Some ("abc" ++ String LF ""))
       = Return (Some ("abc" ++ String LF ""))
  /\ String.length ("abc" ++ String LF "") mod 4 = 0
  /\ ~ base64_form ("abc" ++ String LF "").
Proof.
  split; [exact Base64_exact|].
  split; [reflexivity|]. split; [reflexivity|].
  intros H%base64_form_no_lf. discriminate H.
Qed.

(** The rest of the Base64 contract holds: [None] and the texts whose
    length is not a multiple of 4 are rejected at once with the fixed
    message; on other texts without a line feed acceptance is the base64
    format; the empty text and "ey4uLn0=" pass and "ab" does not. *)
Lemma Base64_format :
  Base64_call None = ValidationError "Value is not a valid base64 encoding"
  /\ (forall s, String.length s mod 4 <> 0 ->
        Base64_call (Some s) = ValidationError "Value is not a valid base64 encoding")
  /\ (forall s, String.length s mod 4 = 0 -> occurs LF s = false ->
        (Base64_call (Some s) = Return (Some s) <-> base64_form s))
  /\ Base64_call (Some "") = Return (Some "")
  /\ passes (Base64_call (Some "ab")) = false
  /\ Base64_call (Some "ey4uLn0=") = Return (Some "ey4uLn0=").
Proof.
  split; [reflexivity|]. split; [|split; [|repeat split; reflexivity]].
  - intros s L. unfold Base64_call.
    destruct (Nat.eqb_spec (String.length s mod 4) 0); [contradiction | reflexivity].
  - intros s L N. rewrite Base64_exact, (without_lf _ _ N). intuition.
Qed.

Lemma iso8601_form_no_lf (s : string) : iso8601_form s -> occurs LF s = false.
Proof. intros H%lang_iso8601. revert H. apply lang_no_lf. reflexivity. Qed.

(** C5.  Every text of the datetime shape is accepted by the datetime
    validator, and so is that text followed by one line feed, which is
    not of the datetime shape: it does not end with a timezone.  For
    instance "2021-01-01T00:00:00Z" followed by a line feed is accepted. *)
Theorem IndyISO8601DateTime_accepts_final_line_feed :
  Regexp_call IndyISO8601DateTime ("2021-01-01T00:00:00Z" ++ String LF "")
    = Return ("2021-01-01T00:00:00Z" ++ String LF "")
  /\ iso8601_form "2021-01-01T00:00:00Z"
  /\ ~ iso8601_form ("2021-01-01T00:00:00Z" ++ String LF "")
  /\ (forall s, iso8601_form s ->
        Regexp_call IndyISO8601DateTime s = Return s
        /\ Regexp_call IndyISO8601DateTime (s ++ String LF "")
             = Return (s ++ String LF "")
        /\ ~ iso8601_form (s ++ String LF "")).
Proof.
  split; [reflexivity|]. split; [|split].
  - apply (proj1 (without_lf iso8601_form "2021-01-01T00:00:00Z" eq_refl)).
    apply IndyISO8601DateTime_exact. reflexivity.
  - intros H%iso8601_form_no_lf. discriminate H.
  - intros s F. split; [|split].
    + apply IndyISO8601DateTime_exact. left. exact F.
    + apply IndyISO8601DateTime_exact. right. exists s. auto.
    + intros H%iso8601_form_no_lf. rewrite occurs_final_lf in H. discriminate.
Qed.

(** The rest of the datetime format holds: every text of the datetime
    shape is accepted; the check is on the shape only, so month 13
    passes. *)
Lemma IndyISO8601DateTime_format :
  (forall s, iso8601_form s -> accepts IndyISO8601DateTime s)
  /\ accepts IndyISO8601DateTime "2021-01-01T00:00:00Z"
  /\ accepts IndyISO8601DateTime "2021-01-01T00:00:00.123456+05:30"
  /\ accepts IndyISO8601DateTime "2021-13-01T00:00:00Z"
  /\ accepts IndyISO8601DateTime "2021-01-01 00:00+0530".
Proof.
  split; [|repeat split; reflexivity].
  intros s F. apply IndyISO8601DateTime_exact. left. exact F.
Qed.

End FinalLineFeed.

(** ** Credential-definition identifier: accepted and rejected values *)
Section CredDefCases.

Local Open Scope string_scope.




(** C10, as stated, fails: with the text "a", a line feed and "b" directly
    after the sequence number 20 the value is rejected, because neither
    [.] nor [$] passes a line feed inside the text. *)
Lemma unseparated_tag_with_inner_line_feed :
  passes (Regexp_call IndyCredDefId
            ("WgWxqztrNooG92RXvxSTWv:3:CL:20" ++ "a" ++ String LF "b")) = false.
Proof. vm_compute. reflexivity. Qed.

(** C10, amended.  The credential-definition validator accepts a DID,
    ":3:CL:", a sequence number and, with no colon in between, any text
    that has no line feed before its last character; for instance
    "WgWxqztrNooG92RXvxSTWv:3:CL:20abc". *)
Theorem IndyCredDefId_unseparated_tag (did seq text : string) :
  is_did did = true -> is_seq_no seq = true -> lf_only_last text = true ->
  Regexp_call IndyCredDefId (did ++ ":3:CL:" ++ seq ++ text)
    = Return (did ++ ":3:CL:" ++ seq ++ text).
Proof.
  intros Hd Hs Ht. apply IndyCredDefId_exact.
  apply lang_schema_txn in Hs.
  destruct (lf_only_last_split _ Ht) as [H | (core & -> & H)].
  - left. exists did, seq, text. repeat split; auto. left. exact Hs.
  - right. exists (did ++ ":3:CL:" ++ seq ++ core). split.
    + rewrite !append_assoc. reflexivity.
    + exists did, seq, core. repeat split; auto. left. exact Hs.
Qed.

Lemma IndyCredDefId_unseparated_tag_witness :
  Regexp_call IndyCredDefId "WgWxqztrNooG92RXvxSTWv:3:CL:20abc"
    = Return "WgWxqztrNooG92RXvxSTWv:3:CL:20abc".
Proof.
  apply (IndyCredDefId_unseparated_tag "WgWxqztrNooG92RXvxSTWv" "20" "abc");
    reflexivity.
Defined.

End CredDefCases.

(** * Further properties of the validators *)

(** ** Version and schema identifier *)
Section VersionAndSchema.

Local Open Scope string_scope.

(** X1.  The version validator returns exactly the non-empty texts made
    of digits and dots, and those texts followed by one line feed; on
    texts without a line feed it is the version format.  The empty text
    and "1.0-beta" are rejected, "1.2.3" is returned. *)
Theorem IndyVersion_accepted (s : string) :
  (Regexp_call IndyVersion s = Return s <->
   up_to_final_lf (fun u => is_version u = true) s)
  /\ (occurs LF s = false ->
      (Regexp_call IndyVersion s = Return s <-> is_version s = true))
  /\ passes (Regexp_call IndyVersion "") = false
  /\ passes (Regexp_call IndyVersion "1.0-beta") = false
  /\ Regexp_call IndyVersion "1.2.3" = Return "1.2.3".
Proof.
  split; [apply IndyVersion_exact|]. split; [|repeat split; reflexivity].
  intros N. change (accepts IndyVersion s <-> is_version s = true).
  rewrite IndyVersion_exact.
  exact (without_lf (fun u => is_version u = true) s N).
Qed.

(** X2.  The schema-ID validator returns exactly the texts made of a DID,
    ":2:", a non-empty name without a line feed, ":" and a version, and
    those texts followed by one line feed.  The name may itself contain
    colons. *)
Theorem IndySchemaId_accepted (s : string) :
  (Regexp_call IndySchemaId s = Return s <-> up_to_final_lf schema_id_text s)
  /\ Regexp_call IndySchemaId "WgWxqztrNooG92RXvxSTWv:2:a:b:1.0"
     = Return "WgWxqztrNooG92RXvxSTWv:2:a:b:1.0"
  /\ passes (Regexp_call IndySchemaId "WgWxqztrNooG92RXvxSTWv:2::1.0") = false.
Proof.
  split; [apply IndySchemaId_exact | split; reflexivity].
Qed.

(** X3.  Every value the schema-ID validator returns starts with a DID
    that the DID validator returns and ends, up to one final line feed,
    with a version that the version validator returns. *)
Theorem IndySchemaId_parts (s : string) :
  Regexp_call IndySchemaId s = Return s ->
  exists did name ver,
    (s = did ++ ":2:" ++ name ++ ":" ++ ver
     \/ s = did ++ ":2:" ++ name ++ ":" ++ ver ++ String LF "")
    /\ Regexp_call IndyDID did = Return did
    /\ name <> ""
    /\ Regexp_call IndyVersion ver = Return ver.
Proof.
  intros A. apply IndySchemaId_exact in A.
  assert (P : forall did ver, is_did did = true -> is_version ver = true ->
            Regexp_call IndyDID did = Return did
            /\ Regexp_call IndyVersion ver = Return ver).
  { intros did ver D V. split.
    - apply IndyDID_exact. left. exact D.
    - apply IndyVersion_exact. left. exact V. }
  destruct A as [(did & name & ver & -> & D & [Nn _] & V)
                | (u & -> & did & name & ver & -> & D & [Nn _] & V)];
    destruct (P did ver D V) as [Ad Av]; exists did, name, ver.
  - repeat split; auto.
  - repeat split; auto. right. rewrite !append_assoc. reflexivity.
Qed.

Lemma IndySchemaId_parts_witness :
  exists did name ver,
    (IndySchemaId_EXAMPLE = did ++ ":2:" ++ name ++ ":" ++ ver
     \/ IndySchemaId_EXAMPLE = did ++ ":2:" ++ name ++ ":" ++ ver ++ String LF "")
    /\ Regexp_call IndyDID did = Return did
    /\ name <> ""
    /\ Regexp_call IndyVersion ver = Return ver.
Proof. apply (IndySchemaId_parts IndySchemaId_EXAMPLE). reflexivity. Defined.

(** X4.  A DID that the DID validator returns, ":2:", a non-empty name
    and a version that the version validator returns make a schema ID
    that the schema-ID validator returns, when none of the three contains
    a line feed. *)
Theorem IndySchemaId_from_parts (did name ver : string) :
  Regexp_call IndyDID did = Return did ->
  Regexp_call IndyVersion ver = Return ver ->
  name <> "" ->
  occurs LF did = false -> occurs LF name = false -> occurs LF ver = false ->
  Regexp_call IndySchemaId (did ++ ":2:" ++ name ++ ":" ++ ver)
    = Return (did ++ ":2:" ++ name ++ ":" ++ ver).
Proof.
  intros Ad Av Nn Ld Ln Lv.
  apply (IndyDID_without_lf did Ld) in Ad.
  apply IndyVersion_exact in Av.
  apply (without_lf (fun u => is_version u = true) ver Lv) in Av.
  apply IndySchemaId_exact. left. exists did, name, ver. auto.
Qed.

Lemma IndySchemaId_from_parts_witness :
  Regexp_call IndySchemaId ("WgWxqztrNooG92RXvxSTWv" ++ ":2:" ++ "schema_name" ++ ":" ++ "1.0")
    = Return ("WgWxqztrNooG92RXvxSTWv" ++ ":2:" ++ "schema_name" ++ ":" ++ "1.0").
Proof.
  apply (IndySchemaId_from_parts "WgWxqztrNooG92RXvxSTWv" "schema_name" "1.0");
    try reflexivity.
  discriminate.
Defined.

End VersionAndSchema.

(** ** Credential-definition identifier *)
Section CredDefMore.

Local Open Scope string_scope.

Lemma lang_schema_ref_iff (w : string) :
  lang (Re.Alt schema_txn schema_id) w <->
  is_seq_no w = true \/ schema_id_text w.
Proof.
  cbn [lang]. rewrite lang_schema_txn, lang_schema_id. reflexivity.
Qed.

Lemma cred_def_id_text_iff (w : string) :
  (exists did ref tag,
      w = did ++ ":3:CL:" ++ ref ++ tag
      /\ is_did did = true
      /\ lang (Re.Alt schema_txn schema_id) ref
      /\ occurs LF tag = false)
  <-> cred_def_id_text w.
Proof.
  unfold cred_def_id_text. split.
  - intros (did & ref & tag & E & D & R & T). exists did, ref, tag.
    rewrite <- lang_schema_ref_iff. auto.
  - intros (did & ref & tag & E & D & R & T). exists did, ref, tag.
    rewrite lang_schema_ref_iff. auto.
Qed.

(** X5.  The credential-definition validator returns exactly the texts
    made of a DID, ":3:CL:", a schema reference (a positive decimal
    sequence number, or a schema ID whose name has no line feed) and any
    text without a line feed, and those texts followed by one line feed.
    Nothing may precede the DID, although the pattern has no [^]. *)
Theorem IndyCredDefId_accepted (s : string) :
  (Regexp_call IndyCredDefId s = Return s <-> up_to_final_lf cred_def_id_text s)
  /\ passes (Regexp_call IndyCredDefId (" " ++ IndyCredDefId_EXAMPLE)) = false.
Proof.
  split; [|reflexivity].
  change (accepts IndyCredDefId s <-> up_to_final_lf cred_def_id_text s).
  rewrite IndyCredDefId_exact. apply up_to_final_lf_ext, cred_def_id_text_iff.
Qed.

(** X6.  A value that the schema-ID validator returns can stand as the
    schema reference of a credential-definition ID: after a DID that the
    DID validator returns and ":3:CL:", and before any tag, the
    credential-definition validator returns the whole, when no part
    contains a line feed. *)
Theorem schema_id_as_reference (did sid tag : string) :
  Regexp_call IndyDID did = Return did ->
  Regexp_call IndySchemaId sid = Return sid ->
  occurs LF did = false -> occurs LF sid = false -> occurs LF tag = false ->
  Regexp_call IndyCredDefId (did ++ ":3:CL:" ++ sid ++ tag)
    = Return (did ++ ":3:CL:" ++ sid ++ tag).
Proof.
  intros Ad As Ld Ls Lt.
  apply (IndyDID_without_lf did Ld) in Ad.
  apply IndySchemaId_exact in As.
  apply (proj1 (without_lf schema_id_text sid Ls)) in As.
  apply IndyCredDefId_exact. left. exists did, sid, tag.
  repeat split; auto. right. apply lang_schema_id. exact As.
Qed.

Lemma schema_id_as_reference_witness :
  Regexp_call IndyCredDefId
    ("WgWxqztrNooG92RXvxSTWv" ++ ":3:CL:"
     ++ "WgWxqztrNooG92RXvxSTWv:2:schema_name:1.0" ++ ":tag")
  = Return ("WgWxqztrNooG92RXvxSTWv" ++ ":3:CL:"
            ++ "WgWxqztrNooG92RXvxSTWv:2:schema_name:1.0" ++ ":tag").
Proof.
  apply (schema_id_as_reference "WgWxqztrNooG92RXvxSTWv"
           "WgWxqztrNooG92RXvxSTWv:2:schema_name:1.0" ":tag"); reflexivity.
Defined.

Lemma did_not_empty (d : string) : is_did d = true -> exists c t, d = String c t.
Proof.
  intros [_ L]%is_did_iff. destruct d as [|c t]; [simpl in L; lia | eauto].
Qed.

(** X7.  The sequence number must be positive and without leading zero:
    after a DID and ":3:CL:", a text that is empty or begins with "0" is
    rejected, whatever follows. *)
Theorem IndyCredDefId_rejects_zero (did rest : string) :
  is_did did = true ->
  passes (Regexp_call IndyCredDefId (did ++ ":3:CL:")) = false
  /\ passes (Regexp_call IndyCredDefId (did ++ ":3:CL:" ++ String "0" rest)) = false.
Proof.
  intros D. split; apply not_passes.
  - change (did ++ ":3:CL:") with (did ++ ":3:CL:" ++ "").
    apply rejects_without_schema_ref; [exact D|].
    intros p (q & E) R. destruct p as [|a p]; [|discriminate].
    destruct R as [R | (d & name & ver & Ed & Dd & _)]; [discriminate|].
    destruct (did_not_empty _ Dd) as (c & t & ->). discriminate.
  - apply rejects_without_schema_ref; [exact D|].
    intros p (q & E) R. destruct p as [|a p].
    + destruct R as [R | (d & name & ver & Ed & Dd & _)]; [discriminate|].
      destruct (did_not_empty _ Dd) as (c & t & ->). discriminate.
    + injection E as <- _.
      destruct R as [R | (d & name & ver & Ed & Dd & _)]; [discriminate|].
      destruct (did_not_empty _ Dd) as (c & t & ->).
      injection Ed as <- _. apply is_did_iff in Dd as [Dd _]. discriminate.
Qed.

Lemma IndyCredDefId_rejects_zero_witness :
  passes (Regexp_call IndyCredDefId ("WgWxqztrNooG92RXvxSTWv" ++ ":3:CL:")) = false
  /\ passes (Regexp_call IndyCredDefId
               ("WgWxqztrNooG92RXvxSTWv" ++ ":3:CL:" ++ String "0" "7:tag")) = false.
Proof.
  apply (IndyCredDefId_rejects_zero "WgWxqztrNooG92RXvxSTWv" "7:tag"). reflexivity.
Defined.

End CredDefMore.

(** ** Rejection messages *)
Section Rejections.


(** X9.  The Base64 validator either returns its argument unchanged or
    raises with one fixed message, whichever of its tests fails: the
    argument is [None], its length is not a multiple of 4, or the pattern
    does not match. *)
Theorem Base64_outcome (value : option string) :
  Base64_call value = Return value
  \/ Base64_call value = ValidationError "Value is not a valid base64 encoding".
Proof.
  rewrite Base64_call_stages. destruct value as [s|]; [|right; reflexivity].
  destruct (String.length s mod 4 =? 0)%nat; [|right; reflexivity].
  destruct (Re.match_ _ s); [left | right]; reflexivity.
Qed.

End Rejections.

(** ** Base64 padding *)
Section Padding.

Local Open Scope string_scope.

(** X10.  On texts without a line feed the two tests of the Base64
    validator together admit exactly the canonically padded texts: base64
    characters whose number leaves remainder 0, 3 or 2 modulo 4, followed
    by no, one or two padding signs respectively. *)
Theorem Base64_canonical_padding (s : string) :
  occurs LF s = false ->
  (Base64_call (Some s) = Return (Some s) <-> canonical_base64 s).
Proof.
  intros N. rewrite Base64_exact, (without_lf base64_form s N).
  unfold base64_form, canonical_base64. split.
  - intros (L & bd & pad & -> & Hb & Hp). exists bd, pad.
    rewrite length_append in L. repeat split; auto.
    destruct Hp as [-> | [-> | ->]]; cbn [String.length] in L.
    + left. split; [|reflexivity]. rewrite Nat.add_0_r in L. exact L.
    + right; left. split; [|reflexivity].
      pose proof (Nat.div_mod_eq (String.length bd) 4).
      pose proof (Nat.div_mod_eq (String.length bd + 1) 4).
      pose proof (Nat.mod_upper_bound (String.length bd) 4). lia.
    + right; right. split; [|reflexivity].
      pose proof (Nat.div_mod_eq (String.length bd) 4).
      pose proof (Nat.div_mod_eq (String.length bd + 2) 4).
      pose proof (Nat.mod_upper_bound (String.length bd) 4). lia.
  - intros (bd & pad & -> & Hb & Hp). rewrite length_append. split.
    + pose proof (Nat.div_mod_eq (String.length bd) 4).
      pose proof (Nat.mod_upper_bound (String.length bd) 4).
      destruct Hp as [[L ->] | [[L ->] | [L ->]]]; cbn [String.length].
      * rewrite Nat.add_0_r. exact L.
      * pose proof (Nat.div_mod_eq (String.length bd + 1) 4).
        pose proof (Nat.mod_upper_bound (String.length bd + 1) 4). lia.
      * pose proof (Nat.div_mod_eq (String.length bd + 2) 4).
        pose proof (Nat.mod_upper_bound (String.length bd + 2) 4). lia.
    + exists bd, pad. repeat split; auto.
      destruct Hp as [[_ ->] | [[_ ->] | [_ ->]]]; auto.
Qed.

Lemma Base64_canonical_padding_witness :
  Base64_call (Some Base64_EXAMPLE) = Return (Some Base64_EXAMPLE)
  <-> canonical_base64 Base64_EXAMPLE.
Proof. apply (Base64_canonical_padding Base64_EXAMPLE). reflexivity. Defined.

End Padding.

(** ** Line feeds *)
Section LineFeeds.

Local Open Scope string_scope.

Lemma lf_only_last_free (u : string) :
  occurs LF u = false ->
  lf_only_last u = true /\ lf_only_last (u ++ String LF "") = true.
Proof.
  induction u as [|c u IH]; [intros _; split; reflexivity|].
  cbn [occurs]. intros [Hc Hu]%orb_false_iff. destruct (IH Hu) as [I1 I2].
  split.
  - destruct u as [|d u]; [reflexivity|]. cbn [lf_only_last].
    rewrite Hc. exact I1.
  - change (String c u ++ String LF "") with (String c (u ++ String LF "")).
    cbn [lf_only_last]. rewrite Hc, I2.
    destruct u; reflexivity.
Qed.

Lemma accepted_lf_only_last (v : Regexp) (b : Re.regex) (s : string) :
  body v = Some b -> pure b = true -> lf_free b = true ->
  accepts v s -> lf_only_last s = true.
Proof.
  intros B P F A. apply (whole_match v b s B P) in A.
  destruct A as [L | (u & -> & L)];
    apply (lang_no_lf b F) in L; apply lf_only_last_free in L; apply L.
Qed.

(** X11.  No validator of the file built on a pattern returns a text with
    a line feed anywhere but in its last position: neither [.] nor any
    set of the patterns takes a line feed, and [$] lets only a final one
    pass. *)
Theorem no_inner_line_feed (v : Regexp) (s : string) :
  In v regexp_validators ->
  Regexp_call v s = Return s -> lf_only_last s = true.
Proof.
  intros I A. unfold regexp_validators in I. cbn [In] in I.
  destruct I as [<- | [<- | [<- | [<- | [<- | [<- | [<- | []]]]]]]];
    eapply accepted_lf_only_last; try exact A; reflexivity.
Qed.

Lemma no_inner_line_feed_witness :
  lf_only_last (IndyCredDefId_EXAMPLE ++ String LF "") = true.
Proof.
  apply (no_inner_line_feed IndyCredDefId (IndyCredDefId_EXAMPLE ++ String LF "")).
  - right; left; reflexivity.
  - reflexivity.
Defined.

End LineFeeds.

(** ** Hexadecimal digests and datetime lengths *)
Section Sizes.

Local Open Scope string_scope.

(** X12.  Every text of 64 hexadecimal digits, in lower or upper case or
    mixed, is returned by the hash validator. *)
Theorem SHA256Hash_accepts_hex (s : string) :
  String.length s = 64 -> all is_hex s = true ->
  Regexp_call SHA256Hash s = Return s.
Proof.
  intros L H. apply SHA256Hash_exact. left. apply sha256_form_iff.
  split; [|exact L]. revert H. apply all_impl. intros c.
  unfold is_hex, is_hash_char.
  destruct (is_digit c), (between "a" "f" c), (between "A" "F" c);
    simpl; congruence.
Qed.

Lemma SHA256Hash_accepts_hex_witness :
  Regexp_call SHA256Hash
    "617A48C7C8AFE0521EFDC03E5BB0AD9E655893e6b4b51f0e794d70fba132aacb"
  = Return "617A48C7C8AFE0521EFDC03E5BB0AD9E655893e6b4b51f0e794d70fba132aacb".
Proof.
  apply (SHA256Hash_accepts_hex
           "617A48C7C8AFE0521EFDC03E5BB0AD9E655893e6b4b51f0e794d70fba132aacb");
    reflexivity.
Defined.

Lemma seconds_form_length (s : string) :
  seconds_form s -> String.length s <= 10.
Proof.
  intros [-> | (ss & [Ls _]%digits_iff & [-> | (f & -> & Lf & _)])].
  - simpl. lia.
  - rewrite length_append. simpl. lia.
  - rewrite !length_append. simpl. lia.
Qed.

Lemma zone_form_length (s : string) :
  zone_form s -> 1 <= String.length s <= 6.
Proof.
  intros [-> | (sg & hh & mm & _ & [Lh _]%digits_iff & [Lm _]%digits_iff
                & [-> | ->])].
  - simpl. lia.
  - simpl. rewrite !length_append. simpl. lia.
  - simpl. rewrite !length_append. lia.
Qed.

Lemma iso8601_form_length (s : string) :
  iso8601_form s -> 17 <= String.length s <= 32.
Proof.
  intros (yyyy & mo & dy & sep & hh & mi & sec & tz & -> & [Ly _]%digits_iff
          & [Lmo _]%digits_iff & [Ldy _]%digits_iff & _ & [Lhh _]%digits_iff
          & [Lmi _]%digits_iff & Hs%seconds_form_length & Hz%zone_form_length).
  repeat (rewrite ?length_append; cbn [String.length]).
  lia.
Qed.

(** X13.  Every text the datetime validator returns has between 17 and 33
    characters: 16 for the date, the separator and HH:MM, at most 10 for
    the seconds, 1 to 6 for the timezone, and possibly one final line
    feed. *)
Theorem IndyISO8601DateTime_length (s : string) :
  Regexp_call IndyISO8601DateTime s = Return s ->
  17 <= String.length s <= 33.
Proof.
  intros [H | (u & -> & H)]%IndyISO8601DateTime_exact;
    apply iso8601_form_length in H.
  - lia.
  - rewrite length_append. simpl. lia.
Qed.

Lemma IndyISO8601DateTime_length_witness :
  17 <= String.length "2021-01-01T00:00:00.123456+05:30" <= 33.
Proof.
  apply (IndyISO8601DateTime_length "2021-01-01T00:00:00.123456+05:30").
  reflexivity.
Defined.

End Sizes.

(** ** The three kinds of identifier *)
Section Kinds.

Local Open Scope string_scope.

Lemma did_accepted_no_colon (s : string) :
  accepts IndyDID s -> occurs ":" s = false.
Proof.
  intros [D | (u & -> & D)]%IndyDID_exact; apply did_no_colon in D.
  - exact D.
  - rewrite occurs_append, D. reflexivity.
Qed.

Lemma schema_id_shape (s : string) :
  accepts IndySchemaId s ->
  exists did rest, s = did ++ String ":" (String "2" rest) /\ is_did did = true.
Proof.
  intros [H | (u & -> & H)]%IndySchemaId_exact;
    destruct H as (did & name & ver & -> & D & _); exists did.
  - exists (":" ++ name ++ ":" ++ ver). auto.
  - exists (":" ++ name ++ ":" ++ ver ++ String LF ""). split; [|exact D].
    rewrite !append_assoc. reflexivity.
Qed.

Lemma both_false (a b : bool) : (a = true -> b = true -> False) -> a && b = false.
Proof. destruct a, b; intros H; try reflexivity. exfalso. auto. Qed.

(** X14.  The three kinds of identifier are told apart by the validators:
    no text is returned by two of the DID, schema-ID and
    credential-definition-ID validators. *)
Theorem identifier_kinds_disjoint (s : string) :
  passes (Regexp_call IndyDID s) && passes (Regexp_call IndySchemaId s) = false
  /\ passes (Regexp_call IndyDID s) && passes (Regexp_call IndyCredDefId s) = false
  /\ passes (Regexp_call IndySchemaId s) && passes (Regexp_call IndyCredDefId s)
     = false.
Proof.
  repeat split; apply both_false; rewrite !passes_accepts; intros A B.
  - apply did_accepted_no_colon in A.
    apply schema_id_shape in B as (d & rest & -> & _).
    rewrite occurs_append in A. simpl in A. rewrite orb_true_r in A. discriminate.
  - apply did_accepted_no_colon in A.
    apply cred_def_shape in B as (d & ref & tail & -> & _).
    rewrite occurs_append in A. simpl in A. rewrite orb_true_r in A. discriminate.
  - apply schema_id_shape in A as (d1 & rest & -> & D1).
    apply cred_def_shape in B as (d2 & ref & tail & E & D2 & _).
    apply (did_prefix_unique _ _ _ _ D1 D2) in E as [_ E]. discriminate.
Qed.

End Kinds.
